(** * STM32G4-UPTIME: the LPTIM1 millisecond/microsecond time base

    A shallow embedding of [stm32g4_uptime.h].  Registers and the volatile
    global [_uptime_ms_cnt] live in one store indexed by a register name;
    every 32-bit value is a [Z] with its wrap-around written out; every
    software access to the store is appended to an access log, so that the
    order in which the code touches the bus can be stated.  What the
    hardware and the interrupt controller do between two software accesses
    is a list of explicit events. *)

From Stdlib Require Import ZArith List Bool Lia.
Import ListNotations.
Local Open Scope Z_scope.

(** ** 32-bit unsigned arithmetic *)

Definition wrap32 (x : Z) : Z := x mod 2 ^ 32.

(** [~x] on a [uint32_t]. *)
Definition not32 (x : Z) : Z := wrap32 (Z.lnot x).

Definition u32 (x : Z) : Prop := 0 <= x < 2 ^ 32.

(** ** Device header

    Modelled from the spec: the bit masks come from the CMSIS device header
    that [main.h] pulls in and that is not part of the sources.  The spec
    names them by role (oscillator enable and ready flags, clock-source
    selector, bus clock gate, reset line, prescaler, reload-match interrupt
    enable, enable and counter-start bits, reload-match and compare-match
    clear flags); the positions are those of the STM32G4 family. *)
Module CMSIS.

Definition RCC_CR_HSION : Z := Z.shiftl 1 8.
Definition RCC_CR_HSIRDY : Z := Z.shiftl 1 10.
Definition RCC_CCIPR_LPTIM1SEL : Z := Z.shiftl 3 18.
Definition RCC_CCIPR_LPTIM1SEL_1 : Z := Z.shiftl 2 18.
Definition RCC_APB1ENR1_LPTIM1EN : Z := Z.shiftl 1 31.
Definition RCC_APB1RSTR1_LPTIM1RST : Z := Z.shiftl 1 31.
Definition LPTIM_CFGR_PRESC_2 : Z := Z.shiftl 4 9.
Definition LPTIM_IER_ARRMIE : Z := Z.shiftl 1 1.
Definition LPTIM_CR_ENABLE : Z := Z.shiftl 1 0.
Definition LPTIM_CR_CNTSTRT : Z := Z.shiftl 1 2.
Definition LPTIM_ICR_CMPMCF : Z := Z.shiftl 1 0.
Definition LPTIM_ICR_ARRMCF : Z := Z.shiftl 1 1.

End CMSIS.
Import CMSIS.

(** [#define LPTIM_ARR_VALUE (1000 - 1)] *)
Definition LPTIM_ARR_VALUE : Z := 1000 - 1.

(** ** The store *)

(** The locations the code touches: the registers of [RCC] and [LPTIM1],
    the interrupt-controller enable of the [LPTIM1_IRQn] line, and the
    volatile global [_uptime_ms_cnt]. *)
Inductive reg : Type :=
| RCC_CR | RCC_CCIPR | RCC_APB1ENR1 | RCC_APB1RSTR1
| LPTIM1_ISR | LPTIM1_ICR | LPTIM1_IER | LPTIM1_CFGR
| LPTIM1_CR | LPTIM1_ARR | LPTIM1_CNT
| NVIC_LPTIM1
| _uptime_ms_cnt.

Definition reg_eqb (a b : reg) : bool :=
  match a, b with
  | RCC_CR, RCC_CR | RCC_CCIPR, RCC_CCIPR | RCC_APB1ENR1, RCC_APB1ENR1
  | RCC_APB1RSTR1, RCC_APB1RSTR1 | LPTIM1_ISR, LPTIM1_ISR
  | LPTIM1_ICR, LPTIM1_ICR | LPTIM1_IER, LPTIM1_IER
  | LPTIM1_CFGR, LPTIM1_CFGR | LPTIM1_CR, LPTIM1_CR
  | LPTIM1_ARR, LPTIM1_ARR | LPTIM1_CNT, LPTIM1_CNT
  | NVIC_LPTIM1, NVIC_LPTIM1 | _uptime_ms_cnt, _uptime_ms_cnt => true
  | _, _ => false
  end.

(** One software access to the store. *)
Inductive access : Type :=
| Rd (r : reg) (v : Z)
| Wr (r : reg) (v : Z).

Record State : Type := mkState {
  mem : reg -> Z;
  log : list access
}.

Definition upd (m : reg -> Z) (r : reg) (v : Z) : reg -> Z :=
  fun r' => if reg_eqb r r' then v else m r'.

(** A volatile load: the value in the store now, and the access logged. *)
Definition read (r : reg) (s : State) : Z * State :=
  (mem s r, mkState (mem s) (log s ++ [Rd r (mem s r)])).

(** A volatile store.  [LPTIM1->ICR] is the write-one-to-clear port of the
    status register: a 1 written there clears the same bit of
    [LPTIM1->ISR], and the port itself holds nothing.  How the timer
    reacts to its reset line in [RCC->APB1RSTR1] (its registers going back
    to their power-on values) is the hardware's doing and is not part of
    the store: a store to that register changes that register only, and no
    frame is stated over the registers of the timer across a reset. *)
Definition write (r : reg) (v : Z) (s : State) : State :=
  match r with
  | LPTIM1_ICR =>
      mkState (upd (mem s) LPTIM1_ISR (Z.land (mem s LPTIM1_ISR) (not32 v)))
              (log s ++ [Wr r v])
  | _ => mkState (upd (mem s) r v) (log s ++ [Wr r v])
  end.

(** [REG |= m] and [REG &= m]: a load followed by a store. *)
Definition set_bits (r : reg) (m : Z) (s : State) : State :=
  let (v, s1) := read r s in write r (Z.lor v m) s1.

Definition and_bits (r : reg) (m : Z) (s : State) : State :=
  let (v, s1) := read r s in write r (Z.land v m) s1.

(** CMSIS [MODIFY_REG(REG, CLEARMASK, SETMASK)]:
    [WRITE_REG(REG, (READ_REG(REG) & ~CLEARMASK) | SETMASK)]. *)
Definition MODIFY_REG (r : reg) (clearmask setmask : Z) (s : State) : State :=
  let (v, s1) := read r s in
  write r (Z.lor (Z.land v (not32 clearmask)) setmask) s1.

(** Modelled from the spec: [NVIC_EnableIRQ] and [NVIC_DisableIRQ] belong to
    the CMSIS core header; the spec describes them as the enable/disable
    mechanism keyed by the fixed identifier of this timer's line. *)
Definition NVIC_EnableIRQ (s : State) : State := write NVIC_LPTIM1 1 s.
Definition NVIC_DisableIRQ (s : State) : State := write NVIC_LPTIM1 0 s.

(** ** Life cycle (straight-line part) *)

Definition UPTIME_Reset (s : State) : State :=
  let s := write _uptime_ms_cnt 0 s in
  let s := set_bits RCC_APB1RSTR1 RCC_APB1RSTR1_LPTIM1RST s in
  and_bits RCC_APB1RSTR1 (not32 RCC_APB1RSTR1_LPTIM1RST) s.

Definition UPTIME_DeInit (s : State) : State :=
  let s := NVIC_DisableIRQ s in
  let s := and_bits RCC_APB1ENR1 (not32 RCC_APB1ENR1_LPTIM1EN) s in
  UPTIME_Reset s.

Definition UPTIME_Suspend (s : State) : State :=
  and_bits LPTIM1_CR (not32 LPTIM_CR_ENABLE) s.

Definition UPTIME_Resume (s : State) : State :=
  let s := set_bits LPTIM1_CR LPTIM_CR_ENABLE s in
  set_bits LPTIM1_CR LPTIM_CR_CNTSTRT s.

(** ** Interrupt handler *)

Definition LPTIM1_IRQHandler (s : State) : State :=
  let s := write LPTIM1_ICR (Z.lor LPTIM_ICR_ARRMCF LPTIM_ICR_CMPMCF) s in
  let (c, s) := read _uptime_ms_cnt s in
  write _uptime_ms_cnt (wrap32 (c + 1)) s.

(** ** What happens between two software accesses *)

Inductive hw_event : Type :=
| ev_irq            (* the LPTIM1 interrupt is taken: the handler runs *)
| ev_cnt (v : Z)    (* the free-running counter now reads [v] *)
| ev_hsirdy.        (* HSI16 has stabilised: the RCC raises HSIRDY *)

Definition hw_step (e : hw_event) (s : State) : State :=
  match e with
  | ev_irq => LPTIM1_IRQHandler s
  | ev_cnt v => mkState (upd (mem s) LPTIM1_CNT v) (log s)
  | ev_hsirdy =>
      mkState (upd (mem s) RCC_CR (Z.lor (mem s RCC_CR) RCC_CR_HSIRDY)) (log s)
  end.

Fixpoint hw_run (es : list hw_event) (s : State) : State :=
  match es with
  | [] => s
  | e :: es' => hw_run es' (hw_step e s)
  end.

(** Number of handler invocations in a batch of events. *)
Fixpoint irq_count (es : list hw_event) : Z :=
  match es with
  | [] => 0
  | ev_irq :: es' => 1 + irq_count es'
  | _ :: es' => irq_count es'
  end.

(** A schedule gives, for each poll of a busy-wait loop, the batch of
    events that happen before the poll's volatile load. *)
Definition schedule : Type := list (list hw_event).

Fixpoint ticks_of (sched : schedule) : Z :=
  match sched with
  | [] => 0
  | b :: rest => irq_count b + ticks_of rest
  end.

(** ** Time queries *)

Definition millis (s : State) : Z * State := read _uptime_ms_cnt s.

(** [micros] loads the counter, then the live [LPTIM1->CNT], in the order
    the expression is written; [between] is what happens between the two
    loads. *)
Definition micros_preempted (between : list hw_event) (s : State)
  : Z * State :=
  let (c, s1) := read _uptime_ms_cnt s in
  let s2 := hw_run between s1 in
  let (n, s3) := read LPTIM1_CNT s2 in
  (wrap32 (wrap32 (c * 1000) + n), s3).

(** [micros] with nothing happening between its two loads. *)
Definition micros (s : State) : Z * State := micros_preempted [] s.

(** ** Busy-wait delays *)

(** The loop of [delayMs]: each poll calls [millis] after the batch the
    schedule gives for it; an exhausted schedule leaves the loop spinning. *)
Fixpoint delayMs_wait (start ms : Z) (sched : schedule) (s : State)
  : option (State * schedule) :=
  match sched with
  | [] => None
  | b :: rest =>
      let (now, s1) := millis (hw_run b s) in
      if wrap32 (now - start) <? ms
      then delayMs_wait start ms rest s1
      else Some (s1, rest)
  end.

Definition delayMs (ms : Z) (sched : schedule) (s : State)
  : option (State * schedule) :=
  let (start, s1) := millis s in
  delayMs_wait start ms sched s1.

(** For [delayUs] a poll is a call of [micros]: one batch before the call
    and one between its two loads. *)
Definition schedule2 : Type := list (list hw_event * list hw_event).

Fixpoint delayUs_wait (start us : Z) (sched : schedule2) (s : State)
  : option (State * schedule2) :=
  match sched with
  | [] => None
  | (b, between) :: rest =>
      let (now, s1) := micros_preempted between (hw_run b s) in
      if wrap32 (now - start) <? us
      then delayUs_wait start us rest s1
      else Some (s1, rest)
  end.

Definition delayUs (us : Z) (between0 : list hw_event) (sched : schedule2)
  (s : State) : option (State * schedule2) :=
  let (start, s1) := micros_preempted between0 s in
  delayUs_wait start us sched s1.

(** ** Initialisation *)

(** [while(!(RCC->CR & RCC_CR_HSIRDY));] *)
Fixpoint wait_HSIRDY (sched : schedule) (s : State)
  : option (State * schedule) :=
  match sched with
  | [] => None
  | b :: rest =>
      let (cr, s1) := read RCC_CR (hw_run b s) in
      if Z.land cr RCC_CR_HSIRDY =? 0
      then wait_HSIRDY rest s1
      else Some (s1, rest)
  end.

Definition UPTIME_Init (sched : schedule) (s : State)
  : option (State * schedule) :=
  let s := UPTIME_Reset s in
  let (cr, s) := read RCC_CR s in
  match (if Z.land cr RCC_CR_HSION =? 0
         then wait_HSIRDY sched (set_bits RCC_CR RCC_CR_HSION s)
         else Some (s, sched)) with
  | None => None
  | Some (s, rest) =>
      let s := MODIFY_REG RCC_CCIPR RCC_CCIPR_LPTIM1SEL RCC_CCIPR_LPTIM1SEL_1 s in
      let s := set_bits RCC_APB1ENR1 RCC_APB1ENR1_LPTIM1EN s in
      let s := write LPTIM1_CFGR LPTIM_CFGR_PRESC_2 s in
      let s := write LPTIM1_IER LPTIM_IER_ARRMIE s in
      let s := write LPTIM1_CR LPTIM_CR_ENABLE s in
      let s := write LPTIM1_ARR LPTIM_ARR_VALUE s in
      let s := set_bits LPTIM1_CR LPTIM_CR_CNTSTRT s in
      Some (NVIC_EnableIRQ s, rest)
  end.

(** ** Traces of the public operations

    The operations that change what [millis] can return, for stating
    properties over every interleaving of them. *)
Inductive op : Type :=
| op_irq | op_millis | op_micros (between : list hw_event)
| op_suspend | op_resume | op_hw (e : hw_event).

Definition op_step (o : op) (s : State) : State :=
  match o with
  | op_irq => LPTIM1_IRQHandler s
  | op_millis => snd (millis s)
  | op_micros between => snd (micros_preempted between s)
  | op_suspend => UPTIME_Suspend s
  | op_resume => UPTIME_Resume s
  | op_hw e => hw_step e s
  end.

Fixpoint op_run (os : list op) (s : State) : State :=
  match os with
  | [] => s
  | o :: os' => op_run os' (op_step o s)
  end.

(** Handler invocations in a trace, those inside [micros] included. *)
Definition op_ticks (o : op) : Z :=
  match o with
  | op_irq => 1
  | op_micros between => irq_count between
  | op_hw ev_irq => 1
  | _ => 0
  end.

Fixpoint trace_ticks (os : list op) : Z :=
  match os with
  | [] => 0
  | o :: os' => op_ticks o + trace_ticks os'
  end.

(** ** States, predicates and auxiliary views used in the statements *)

(** Bounds on a closed term, by evaluation. *)
Ltac by_evaluation := vm_compute; split; first [discriminate | reflexivity].

(** The state the program starts from: every location zero, nothing
    logged. *)
Definition boot : State := mkState (fun _ => 0) [].

(** A counter two ticks away from its wrap. *)
Definition near_wrap : State :=
  mkState (upd (fun _ => 0) _uptime_ms_cnt (2 ^ 32 - 2)) [].

(** The composite bound of the specification, read over the integers. *)
Definition composite_bound (us ms : Z) : Prop :=
  ms * 1000 - 1000 <= us <= ms * 1000 + 1000.

(** The last millisecond whose thousandfold still fits 32 bits, with the
    hardware count at the end of its period. *)
Definition last_ms_before_micros_wrap : State :=
  mkState (upd (upd (fun _ => 0) _uptime_ms_cnt 4294967)
               LPTIM1_CNT LPTIM_ARR_VALUE) [].

(** The two halves of [UPTIME_Init] after the reset: the guarded wait, and
    the configuration that follows it. *)
Definition Init_clock_guard (sched : schedule) (s : State)
  : option (State * schedule) :=
  let (cr, s0) := read RCC_CR (UPTIME_Reset s) in
  if Z.land cr RCC_CR_HSION =? 0
  then wait_HSIRDY sched (set_bits RCC_CR RCC_CR_HSION s0)
  else Some (s0, sched).

Definition Init_configure (s : State) : State :=
  let s := MODIFY_REG RCC_CCIPR RCC_CCIPR_LPTIM1SEL RCC_CCIPR_LPTIM1SEL_1 s in
  let s := set_bits RCC_APB1ENR1 RCC_APB1ENR1_LPTIM1EN s in
  let s := write LPTIM1_CFGR LPTIM_CFGR_PRESC_2 s in
  let s := write LPTIM1_IER LPTIM_IER_ARRMIE s in
  let s := write LPTIM1_CR LPTIM_CR_ENABLE s in
  let s := write LPTIM1_ARR LPTIM_ARR_VALUE s in
  let s := set_bits LPTIM1_CR LPTIM_CR_CNTSTRT s in
  NVIC_EnableIRQ s.

(** The accesses of the configuration, from the values it loads. *)
Definition Init_configure_log (ccipr enr : Z) : list access :=
  [Rd RCC_CCIPR ccipr;
   Wr RCC_CCIPR (Z.lor (Z.land ccipr (not32 RCC_CCIPR_LPTIM1SEL))
                       RCC_CCIPR_LPTIM1SEL_1);
   Rd RCC_APB1ENR1 enr;
   Wr RCC_APB1ENR1 (Z.lor enr RCC_APB1ENR1_LPTIM1EN);
   Wr LPTIM1_CFGR LPTIM_CFGR_PRESC_2;
   Wr LPTIM1_IER LPTIM_IER_ARRMIE;
   Wr LPTIM1_CR LPTIM_CR_ENABLE;
   Wr LPTIM1_ARR LPTIM_ARR_VALUE;
   Rd LPTIM1_CR LPTIM_CR_ENABLE;
   Wr LPTIM1_CR (Z.lor LPTIM_CR_ENABLE LPTIM_CR_CNTSTRT);
   Wr NVIC_LPTIM1 1].

Definition HSIRDY_bit (s : State) : bool := Z.testbit (mem s RCC_CR) 10.

(** Has a load of [RCC->CR] in this log returned the ready flag set? *)
Definition ready_observed (l : list access) : bool :=
  existsb (fun a => match a with
                    | Rd RCC_CR v => negb (Z.land v RCC_CR_HSIRDY =? 0)
                    | _ => false
                    end) l.

(** HSI16 switched on by earlier code and not yet stable. *)
Definition hsi_on_not_ready : State :=
  mkState (upd (fun _ => 0) RCC_CR RCC_CR_HSION) [].

(** HSI16 off, as after the clock tree was moved to another source. *)
Definition hsi_off : State := boot.

(** A batch of events that moves neither the millisecond counter nor the
    hardware count: the timer is not running. *)
Definition time_frozen (es : list hw_event) : bool :=
  forallb (fun e => match e with ev_hsirdy => true | _ => false end) es.

(** Two stores that differ at most in the interrupt-controller enable and
    in the bus clock gate of the timer. *)
Definition same_but_gates (s1 s2 : State) : Prop :=
  (forall r, r <> NVIC_LPTIM1 -> r <> RCC_APB1ENR1 -> mem s1 r = mem s2 r)
  /\ Z.lor (mem s1 RCC_APB1ENR1) RCC_APB1ENR1_LPTIM1EN
     = Z.lor (mem s2 RCC_APB1ENR1) RCC_APB1ENR1_LPTIM1EN.

(** A timer ticking away at counter 41, hardware count 250, with the bus
    clock gate open and the interrupt line enabled. *)
Definition running : State :=
  mkState (upd (upd (upd (upd (upd (fun _ => 0)
             _uptime_ms_cnt 41) LPTIM1_CNT 250)
             RCC_APB1ENR1 RCC_APB1ENR1_LPTIM1EN) NVIC_LPTIM1 1)
             LPTIM1_CR (Z.lor LPTIM_CR_ENABLE LPTIM_CR_CNTSTRT)) [].

(** The registers of the timer itself, which its reset line puts back to
    their power-on values. *)
Definition is_LPTIM1 (r : reg) : bool :=
  match r with
  | LPTIM1_ISR | LPTIM1_ICR | LPTIM1_IER | LPTIM1_CFGR
  | LPTIM1_CR | LPTIM1_ARR | LPTIM1_CNT => true
  | _ => false
  end.

(** The accesses of [UPTIME_Reset], from the value it loads. *)
Definition Reset_accesses (rstr : Z) : list access :=
  [Wr _uptime_ms_cnt 0;
   Rd RCC_APB1RSTR1 rstr;
   Wr RCC_APB1RSTR1 (Z.lor rstr RCC_APB1RSTR1_LPTIM1RST);
   Rd RCC_APB1RSTR1 (Z.lor rstr RCC_APB1RSTR1_LPTIM1RST);
   Wr RCC_APB1RSTR1 (Z.land (Z.lor rstr RCC_APB1RSTR1_LPTIM1RST)
                            (not32 RCC_APB1RSTR1_LPTIM1RST))].

(** What can be logged while [UPTIME_Init] is in its wait loop: a load of
    [RCC->CR] that shows the ready flag clear, and the three accesses of a
    run of the handler. *)
Definition wait_access (a : access) : bool :=
  match a with
  | Rd RCC_CR v => Z.land v RCC_CR_HSIRDY =? 0
  | Wr LPTIM1_ICR _ => true
  | Rd _uptime_ms_cnt _ => true
  | Wr _uptime_ms_cnt _ => true
  | _ => false
  end.

(** * Properties *)

(** ** Arithmetic modulo 2^32 *)

Lemma wrap32_range x : 0 <= wrap32 x < 2 ^ 32.
Proof. unfold wrap32. apply Z.mod_pos_bound. reflexivity. Qed.

Lemma wrap32_small x : 0 <= x < 2 ^ 32 -> wrap32 x = x.
Proof. unfold wrap32. intros H. apply Z.mod_small. exact H. Qed.

Lemma wrap32_idem x : wrap32 (wrap32 x) = wrap32 x.
Proof. unfold wrap32. apply Z.mod_mod. discriminate. Qed.

Lemma wrap32_add_l x y : wrap32 (wrap32 x + y) = wrap32 (x + y).
Proof. unfold wrap32. apply Zplus_mod_idemp_l. Qed.

Lemma wrap32_add_r x y : wrap32 (x + wrap32 y) = wrap32 (x + y).
Proof. unfold wrap32. apply Zplus_mod_idemp_r. Qed.

Lemma wrap32_sub_l x y : wrap32 (wrap32 x - y) = wrap32 (x - y).
Proof. unfold wrap32. apply Zminus_mod_idemp_l. Qed.

Lemma wrap32_sub_r x y : wrap32 (x - wrap32 y) = wrap32 (x - y).
Proof. unfold wrap32. apply Zminus_mod_idemp_r. Qed.

Lemma wrap32_mul_l x y : wrap32 (wrap32 x * y) = wrap32 (x * y).
Proof. unfold wrap32. apply Zmult_mod_idemp_l. Qed.

(** ** Bits of the masks *)

Lemma testbit_not32 m i :
  0 <= i < 32 -> Z.testbit (not32 m) i = negb (Z.testbit m i).
Proof.
  intros [Hi Hlt]. unfold not32, wrap32.
  rewrite Z.mod_pow2_bits_low by exact Hlt.
  apply Z.lnot_spec. exact Hi.
Qed.

Lemma testbit_bit k i :
  0 <= k -> Z.testbit (Z.shiftl 1 k) i = (i =? k).
Proof.
  intros Hk. rewrite Z.shiftl_1_l, Z.pow2_bits_eqb by exact Hk.
  apply Z.eqb_sym.
Qed.

(** ** The store under reads and writes *)

Lemma reg_eqb_eq a b : reg_eqb a b = true <-> a = b.
Proof. split; [destruct a, b; simpl; congruence | intros ->; destruct b; reflexivity]. Qed.

Lemma reg_eqb_refl a : reg_eqb a a = true.
Proof. destruct a; reflexivity. Qed.

Lemma reg_eqb_neq a b : a <> b -> reg_eqb a b = false.
Proof.
  intros H. destruct (reg_eqb a b) eqn:E; [|reflexivity].
  apply reg_eqb_eq in E. contradiction.
Qed.

Lemma upd_same m r v : upd m r v r = v.
Proof. unfold upd. now rewrite reg_eqb_refl. Qed.

Lemma upd_other m r v r' : r <> r' -> upd m r v r' = m r'.
Proof. intros H. unfold upd. now rewrite reg_eqb_neq. Qed.

Lemma mem_write_same r v s : r <> LPTIM1_ICR -> mem (write r v s) r = v.
Proof. intros H. destruct r; try contradiction; reflexivity. Qed.

Lemma mem_write_other r v s r' :
  r <> r' -> (r = LPTIM1_ICR -> r' <> LPTIM1_ISR) ->
  mem (write r v s) r' = mem s r'.
Proof.
  intros H H'. destruct r; simpl; try (apply upd_other; assumption).
  apply upd_other. intros <-. now apply H'.
Qed.

Lemma mem_set_bits_same r m s :
  r <> LPTIM1_ICR -> mem (set_bits r m s) r = Z.lor (mem s r) m.
Proof. intros H. unfold set_bits, read. now rewrite mem_write_same. Qed.

Lemma mem_and_bits_same r m s :
  r <> LPTIM1_ICR -> mem (and_bits r m s) r = Z.land (mem s r) m.
Proof. intros H. unfold and_bits, read. now rewrite mem_write_same. Qed.

Lemma mem_set_bits_other r m s r' :
  r <> r' -> r <> LPTIM1_ICR -> mem (set_bits r m s) r' = mem s r'.
Proof.
  intros H H'. unfold set_bits, read.
  rewrite mem_write_other; [reflexivity | assumption | contradiction].
Qed.

Lemma mem_and_bits_other r m s r' :
  r <> r' -> r <> LPTIM1_ICR -> mem (and_bits r m s) r' = mem s r'.
Proof.
  intros H H'. unfold and_bits, read.
  rewrite mem_write_other; [reflexivity | assumption | contradiction].
Qed.

(** ** The millisecond counter under the handler and the hardware *)

Lemma ms_IRQHandler s :
  mem (LPTIM1_IRQHandler s) _uptime_ms_cnt
  = wrap32 (mem s _uptime_ms_cnt + 1).
Proof. reflexivity. Qed.

Lemma ms_hw_step e s :
  u32 (mem s _uptime_ms_cnt) ->
  mem (hw_step e s) _uptime_ms_cnt
  = wrap32 (mem s _uptime_ms_cnt + irq_count [e]).
Proof.
  intros H. destruct e; simpl.
  - reflexivity.
  - rewrite Z.add_0_r, wrap32_small by exact H. reflexivity.
  - rewrite Z.add_0_r, wrap32_small by exact H. reflexivity.
Qed.

Lemma ms_hw_run es : forall s,
  u32 (mem s _uptime_ms_cnt) ->
  mem (hw_run es s) _uptime_ms_cnt
  = wrap32 (mem s _uptime_ms_cnt + irq_count es).
Proof.
  induction es as [|e es IH]; intros s H.
  - simpl. rewrite Z.add_0_r, wrap32_small by exact H. reflexivity.
  - cbn [hw_run]. rewrite IH.
    + rewrite ms_hw_step by exact H. rewrite wrap32_add_l.
      f_equal. destruct e; cbn [irq_count]; lia.
    + rewrite ms_hw_step by exact H. apply wrap32_range.
Qed.

Lemma irq_count_nonneg es : 0 <= irq_count es.
Proof. induction es as [|[| |] es IH]; cbn [irq_count]; lia. Qed.

Lemma ticks_of_nonneg sched : 0 <= ticks_of sched.
Proof.
  induction sched as [|b rest IH]; cbn [ticks_of]; [lia|].
  pose proof (irq_count_nonneg b). lia.
Qed.

Lemma ticks_of_app a b : ticks_of (a ++ b) = ticks_of a + ticks_of b.
Proof.
  induction a as [|x a IH]; cbn [ticks_of app]; [reflexivity | rewrite IH; lia].
Qed.

Lemma ms_iter_IRQHandler N : forall s,
  mem (Nat.iter N LPTIM1_IRQHandler s) _uptime_ms_cnt
  = wrap32 (wrap32 (mem s _uptime_ms_cnt) + Z.of_nat N)
  \/ (N = 0%nat /\ mem (Nat.iter N LPTIM1_IRQHandler s) _uptime_ms_cnt
                   = mem s _uptime_ms_cnt).
Proof.
  induction N as [|N IH]; intros s.
  - right. split; reflexivity.
  - left. rewrite Nat.iter_succ, ms_IRQHandler.
    destruct (IH s) as [E | [-> E]].
    + rewrite E, wrap32_add_l. f_equal. lia.
    + simpl Nat.iter. rewrite wrap32_add_l. reflexivity.
Qed.

Lemma ms_Reset s : mem (UPTIME_Reset s) _uptime_ms_cnt = 0.
Proof. reflexivity. Qed.

(** ** C1: the value of [micros] *)

(** C1.  For every state, [micros] returns the millisecond counter times
    1000 plus the hardware sub-period count, in arithmetic modulo 2^32; the
    sub-period count is the value [LPTIM1->CNT] holds when [micros] loads
    it, also when events come between the two loads. *)
Theorem micros_is_ms_times_1000_plus_cnt :
  forall s : State,
    fst (micros s)
    = (mem s _uptime_ms_cnt * 1000 + mem s LPTIM1_CNT) mod 2 ^ 32
    /\ forall between,
        fst (micros_preempted between s)
        = (mem s _uptime_ms_cnt * 1000
           + mem (snd (micros_preempted between s)) LPTIM1_CNT) mod 2 ^ 32.
Proof.
  intros s. split; [|intros between];
    unfold micros, micros_preempted, read; cbn [fst snd mem hw_run];
    rewrite wrap32_add_l; reflexivity.
Qed.

(** ** C3: the interrupt handler *)

(** C3.  One run of the handler clears the reload-match and compare-match
    flags of the status register and no other flag, adds one to the
    millisecond counter modulo 2^32, leaves every other location as it was,
    and touches the bus three times: the store to the clear port, the load
    and the store of the counter.  After a reset, N runs of the handler make
    [millis] return N modulo 2^32. *)
Theorem IRQHandler_clears_flags_and_ticks :
  forall s : State,
    (forall i, 0 <= i < 32 ->
       Z.testbit (mem (LPTIM1_IRQHandler s) LPTIM1_ISR) i
       = if (i =? 0) || (i =? 1) then false
         else Z.testbit (mem s LPTIM1_ISR) i)
    /\ mem (LPTIM1_IRQHandler s) _uptime_ms_cnt
       = (mem s _uptime_ms_cnt + 1) mod 2 ^ 32
    /\ (forall r, r <> LPTIM1_ISR -> r <> _uptime_ms_cnt ->
          mem (LPTIM1_IRQHandler s) r = mem s r)
    /\ log (LPTIM1_IRQHandler s)
       = log s ++ [Wr LPTIM1_ICR 3;
                   Rd _uptime_ms_cnt (mem s _uptime_ms_cnt);
                   Wr _uptime_ms_cnt ((mem s _uptime_ms_cnt + 1) mod 2 ^ 32)]
    /\ forall N : nat,
         fst (millis (Nat.iter N LPTIM1_IRQHandler (UPTIME_Reset s)))
         = Z.of_nat N mod 2 ^ 32.
Proof.
  intros s. repeat split.
  - intros i Hi.
    change (mem (LPTIM1_IRQHandler s) LPTIM1_ISR)
      with (Z.land (mem s LPTIM1_ISR)
              (not32 (Z.lor LPTIM_ICR_ARRMCF LPTIM_ICR_CMPMCF))).
    rewrite Z.land_spec, testbit_not32 by exact Hi.
    rewrite Z.lor_spec. unfold LPTIM_ICR_ARRMCF, LPTIM_ICR_CMPMCF.
    rewrite !testbit_bit by lia.
    destruct (i =? 0), (i =? 1); simpl;
      rewrite ?andb_false_r, ?andb_true_r; reflexivity.
  - intros r H1 H2. destruct r; try contradiction; reflexivity.
  - unfold LPTIM1_IRQHandler, read, write; cbn [log mem].
    rewrite <- !app_assoc. reflexivity.
  - intros N. unfold millis, read; cbn [fst].
    destruct (ms_iter_IRQHandler N (UPTIME_Reset s)) as [E | [-> E]].
    + rewrite E, ms_Reset. reflexivity.
    + rewrite E, ms_Reset. reflexivity.
Qed.

(** ** C4: [millis] never goes back without a reset *)

Lemma mem_read r s : mem (snd (read r s)) = mem s.
Proof. reflexivity. Qed.

Lemma ms_Suspend s :
  mem (UPTIME_Suspend s) _uptime_ms_cnt = mem s _uptime_ms_cnt.
Proof. reflexivity. Qed.

Lemma ms_Resume s :
  mem (UPTIME_Resume s) _uptime_ms_cnt = mem s _uptime_ms_cnt.
Proof. reflexivity. Qed.

Lemma ms_micros_preempted between s :
  u32 (mem s _uptime_ms_cnt) ->
  mem (snd (micros_preempted between s)) _uptime_ms_cnt
  = wrap32 (mem s _uptime_ms_cnt + irq_count between).
Proof.
  intros H. unfold micros_preempted.
  destruct (read _uptime_ms_cnt s) as [c s1] eqn:E1.
  assert (Hm : mem s1 = mem s) by (inversion E1; reflexivity).
  cbn [read snd mem]. rewrite ms_hw_run by (rewrite Hm; exact H).
  now rewrite Hm.
Qed.

Lemma ms_op_step o s :
  u32 (mem s _uptime_ms_cnt) ->
  mem (op_step o s) _uptime_ms_cnt
  = wrap32 (mem s _uptime_ms_cnt + op_ticks o).
Proof.
  intros H. destruct o as [| |between| | |e]; cbn [op_step op_ticks].
  - apply ms_IRQHandler.
  - unfold millis. rewrite mem_read, Z.add_0_r, wrap32_small by exact H.
    reflexivity.
  - apply ms_micros_preempted. exact H.
  - rewrite ms_Suspend, Z.add_0_r, wrap32_small by exact H. reflexivity.
  - rewrite ms_Resume, Z.add_0_r, wrap32_small by exact H. reflexivity.
  - rewrite ms_hw_step by exact H. destruct e; reflexivity.
Qed.

Lemma op_ticks_nonneg o : 0 <= op_ticks o.
Proof.
  destruct o as [| |between| | |[| |]]; cbn [op_ticks]; try lia.
  apply irq_count_nonneg.
Qed.

Lemma trace_ticks_nonneg os : 0 <= trace_ticks os.
Proof.
  induction os as [|o os IH]; cbn [trace_ticks]; [lia|].
  pose proof (op_ticks_nonneg o). lia.
Qed.

Lemma ms_op_run os : forall s,
  u32 (mem s _uptime_ms_cnt) ->
  mem (op_run os s) _uptime_ms_cnt
  = wrap32 (mem s _uptime_ms_cnt + trace_ticks os).
Proof.
  induction os as [|o os IH]; intros s H; cbn [op_run trace_ticks].
  - rewrite Z.add_0_r, wrap32_small by exact H. reflexivity.
  - rewrite IH, ms_op_step by (try rewrite ms_op_step by exact H;
                                try apply wrap32_range; exact H).
    rewrite wrap32_add_l. f_equal. lia.
Qed.

(** C4.  Along any trace of handler runs, queries, suspends, resumes and
    hardware events (no reset among them), the later [millis] is the
    earlier one plus the number of handler runs, modulo 2^32: it is not
    below the earlier one while the sum stays under 2^32, and after one
    wrap-around it is below it by exactly 2^32 less the ticks. *)
Theorem millis_monotone_without_reset :
  forall (os : list op) (s : State),
    u32 (mem s _uptime_ms_cnt) ->
    let earlier := fst (millis s) in
    let later := fst (millis (op_run os s)) in
    later = (earlier + trace_ticks os) mod 2 ^ 32
    /\ (earlier + trace_ticks os < 2 ^ 32 -> earlier <= later)
    /\ (2 ^ 32 <= earlier + trace_ticks os < 2 * 2 ^ 32 ->
        earlier <= later + 2 ^ 32
        /\ later + 2 ^ 32 = earlier + trace_ticks os).
Proof.
  intros os s H earlier later.
  assert (E : later = wrap32 (earlier + trace_ticks os))
    by (subst earlier later; unfold millis, read; cbn [fst];
        apply ms_op_run; exact H).
  assert (He : 0 <= earlier < 2 ^ 32) by exact H.
  pose proof (trace_ticks_nonneg os) as Hk.
  split; [exact E|]. split.
  - intros Hlt. rewrite E, wrap32_small by lia. lia.
  - intros Hw.
    assert (E' : later = earlier + trace_ticks os - 2 ^ 32).
    { rewrite E. unfold wrap32. symmetry.
      apply Z.mod_unique with (q := 1); lia. }
    lia.
Qed.

Lemma millis_monotone_without_reset_witness :
  u32 (mem boot _uptime_ms_cnt)
  /\ fst (millis (op_run [op_irq; op_millis; op_suspend; op_irq] boot))
     = (fst (millis boot) + 2) mod 2 ^ 32.
Proof.
  split.
  - by_evaluation.
  - apply (millis_monotone_without_reset
             [op_irq; op_millis; op_suspend; op_irq] boot).
    by_evaluation.
Defined.

(** ** C7: reset *)

(** C7.  [UPTIME_Reset] first stores 0 to the millisecond counter, then
    sets the reset bit of the peripheral in [RCC->APB1RSTR1], then clears
    it, touching no other bit of that register; so [millis] returns 0 after
    a reset whatever the counter was (0 included, or after N ticks), and 1
    after the next run of the handler. *)
Theorem Reset_zeroes_then_pulses_reset_line :
  forall s : State,
    let v := mem s RCC_APB1RSTR1 in
    log (UPTIME_Reset s)
    = log s ++ [Wr _uptime_ms_cnt 0;
                Rd RCC_APB1RSTR1 v;
                Wr RCC_APB1RSTR1 (Z.lor v RCC_APB1RSTR1_LPTIM1RST);
                Rd RCC_APB1RSTR1 (Z.lor v RCC_APB1RSTR1_LPTIM1RST);
                Wr RCC_APB1RSTR1
                   (Z.land (Z.lor v RCC_APB1RSTR1_LPTIM1RST)
                           (not32 RCC_APB1RSTR1_LPTIM1RST))]
    /\ Z.testbit (Z.lor v RCC_APB1RSTR1_LPTIM1RST) 31 = true
    /\ (forall i, 0 <= i < 32 ->
          Z.testbit (mem (UPTIME_Reset s) RCC_APB1RSTR1) i
          = if i =? 31 then false else Z.testbit v i)
    /\ fst (millis (UPTIME_Reset s)) = 0
    /\ (mem s _uptime_ms_cnt = 0 ->
        mem (UPTIME_Reset s) _uptime_ms_cnt = mem s _uptime_ms_cnt)
    /\ (forall N : nat,
          fst (millis (UPTIME_Reset (Nat.iter N LPTIM1_IRQHandler s))) = 0)
    /\ fst (millis (LPTIM1_IRQHandler (UPTIME_Reset s))) = 1.
Proof.
  intros s v. repeat split.
  - unfold UPTIME_Reset, and_bits, set_bits, read, write; cbn [log mem].
    rewrite <- !app_assoc. reflexivity.
  - rewrite Z.lor_spec. unfold RCC_APB1RSTR1_LPTIM1RST.
    rewrite testbit_bit by lia. apply orb_true_r.
  - intros i Hi.
    change (mem (UPTIME_Reset s) RCC_APB1RSTR1)
      with (Z.land (Z.lor v RCC_APB1RSTR1_LPTIM1RST)
                   (not32 RCC_APB1RSTR1_LPTIM1RST)).
    rewrite Z.land_spec, testbit_not32, Z.lor_spec by exact Hi.
    unfold RCC_APB1RSTR1_LPTIM1RST. rewrite testbit_bit by lia.
    destruct (i =? 31); simpl;
      rewrite ?andb_false_r, ?andb_true_r, ?orb_false_r; reflexivity.
  - intros H. rewrite H. reflexivity.
Qed.

(** ** C8: suspend and resume *)

(** C8.  [UPTIME_Suspend] changes nothing but bit 0 (enable) of
    [LPTIM1->CR], which it clears; [UPTIME_Resume] changes nothing but
    bits 0 (enable) and 2 (counter start) of that register, which it sets,
    the enable bit first.  Neither changes the hardware count or the
    millisecond counter, so [millis] returns the same value before and
    after. *)
Theorem Suspend_Resume_touch_only_CR_bits :
  forall s : State,
    (forall r, r <> LPTIM1_CR -> mem (UPTIME_Suspend s) r = mem s r)
    /\ (forall i, 0 <= i < 32 ->
          Z.testbit (mem (UPTIME_Suspend s) LPTIM1_CR) i
          = if i =? 0 then false else Z.testbit (mem s LPTIM1_CR) i)
    /\ (forall r, r <> LPTIM1_CR -> mem (UPTIME_Resume s) r = mem s r)
    /\ (forall i, 0 <= i < 32 ->
          Z.testbit (mem (UPTIME_Resume s) LPTIM1_CR) i
          = if (i =? 0) || (i =? 2) then true
            else Z.testbit (mem s LPTIM1_CR) i)
    /\ log (UPTIME_Suspend s)
       = log s ++ [Rd LPTIM1_CR (mem s LPTIM1_CR);
                   Wr LPTIM1_CR
                      (Z.land (mem s LPTIM1_CR) (not32 LPTIM_CR_ENABLE))]
    /\ log (UPTIME_Resume s)
       = log s ++ [Rd LPTIM1_CR (mem s LPTIM1_CR);
                   Wr LPTIM1_CR (Z.lor (mem s LPTIM1_CR) LPTIM_CR_ENABLE);
                   Rd LPTIM1_CR (Z.lor (mem s LPTIM1_CR) LPTIM_CR_ENABLE);
                   Wr LPTIM1_CR
                      (Z.lor (Z.lor (mem s LPTIM1_CR) LPTIM_CR_ENABLE)
                             LPTIM_CR_CNTSTRT)]
    /\ fst (millis (UPTIME_Suspend s)) = fst (millis s)
    /\ fst (millis (UPTIME_Resume s)) = fst (millis s).
Proof.
  intros s. repeat split.
  - intros r Hr. destruct r; try contradiction; reflexivity.
  - intros i Hi.
    change (mem (UPTIME_Suspend s) LPTIM1_CR)
      with (Z.land (mem s LPTIM1_CR) (not32 LPTIM_CR_ENABLE)).
    rewrite Z.land_spec, testbit_not32 by exact Hi.
    unfold LPTIM_CR_ENABLE. rewrite testbit_bit by lia.
    destruct (i =? 0); simpl;
      rewrite ?andb_false_r, ?andb_true_r; reflexivity.
  - intros r Hr. destruct r; try contradiction; reflexivity.
  - intros i Hi.
    change (mem (UPTIME_Resume s) LPTIM1_CR)
      with (Z.lor (Z.lor (mem s LPTIM1_CR) LPTIM_CR_ENABLE)
                  LPTIM_CR_CNTSTRT).
    rewrite !Z.lor_spec. unfold LPTIM_CR_ENABLE, LPTIM_CR_CNTSTRT.
    rewrite !testbit_bit by lia.
    destruct (i =? 0), (i =? 2); simpl;
      rewrite ?orb_false_r, ?orb_true_r; reflexivity.
  - unfold UPTIME_Suspend, and_bits, read, write; cbn [log mem].
    rewrite <- !app_assoc. reflexivity.
  - unfold UPTIME_Resume, set_bits, read, write; cbn [log mem].
    rewrite <- !app_assoc. reflexivity.
Qed.

(** ** C9: a zero delay does not wait *)

Lemma wrap32_not_below_zero x : (wrap32 x <? 0) = false.
Proof. apply Z.ltb_ge. apply wrap32_range. Qed.

(** C9.  Whatever the state and whatever happens before the poll, the
    condition of the loop of [delayMs 0] and of [delayUs 0] is false the
    first time it is evaluated: the call returns after that one evaluation,
    with the rest of the schedule untouched and the body never run. *)
Theorem delay_zero_returns_at_first_poll :
  (forall (s : State) (b : list hw_event) (rest : schedule),
     delayMs 0 (b :: rest) s
     = Some (snd (millis (hw_run b (snd (millis s)))), rest))
  /\ (forall (s : State) (between0 b between : list hw_event)
        (rest : schedule2),
        delayUs 0 between0 ((b, between) :: rest) s
        = Some (snd (micros_preempted between
                       (hw_run b (snd (micros_preempted between0 s)))),
                rest)).
Proof.
  split.
  - intros s b rest. unfold delayMs.
    destruct (millis s) as [start s1]. cbn [snd delayMs_wait].
    destruct (millis (hw_run b s1)) as [now s2]. cbn [snd].
    now rewrite wrap32_not_below_zero.
  - intros s between0 b between rest. unfold delayUs.
    destruct (micros_preempted between0 s) as [start s1].
    cbn [snd delayUs_wait].
    destruct (micros_preempted between (hw_run b s1)) as [now s2].
    cbn [snd]. now rewrite wrap32_not_below_zero.
Qed.

(** ** C10: the microsecond base across the wrap of the counter *)

Lemma micros_fst s :
  fst (micros s) = wrap32 (mem s _uptime_ms_cnt * 1000 + mem s LPTIM1_CNT).
Proof.
  unfold micros, micros_preempted, read; cbn [fst mem hw_run].
  apply wrap32_add_l.
Qed.

Lemma cnt_IRQHandler s :
  mem (LPTIM1_IRQHandler s) LPTIM1_CNT = mem s LPTIM1_CNT.
Proof. reflexivity. Qed.

Lemma micros_IRQHandler s :
  fst (micros (LPTIM1_IRQHandler s)) = wrap32 (fst (micros s) + 1000).
Proof.
  rewrite !micros_fst, ms_IRQHandler, cnt_IRQHandler.
  rewrite <- wrap32_add_l, wrap32_mul_l, !wrap32_add_l.
  f_equal. lia.
Qed.

Lemma micros_iter_IRQHandler k : forall s,
  fst (micros (Nat.iter k LPTIM1_IRQHandler s))
  = wrap32 (fst (micros s) + 1000 * Z.of_nat k).
Proof.
  induction k as [|k IH]; intros s.
  - rewrite Z.mul_0_r, Z.add_0_r. simpl Nat.iter.
    rewrite micros_fst. symmetry. apply wrap32_idem.
  - rewrite Nat.iter_succ, micros_IRQHandler, IH, wrap32_add_l.
    f_equal. lia.
Qed.

(** C10.  For every counter value m, ((m + 1) mod 2^32) * 1000 and
    m * 1000 + 1000 agree modulo 2^32; so one run of the handler with the
    hardware count unchanged moves [micros] forward by exactly 1000 modulo
    2^32, k runs by 1000 * k, and the modular difference [delayUs] takes
    between the two readings is 1000 * k modulo 2^32, at the wrap of the
    counter as anywhere else. *)
Theorem micros_base_wrap_continuous :
  (forall m : Z,
     wrap32 (wrap32 (m + 1) * 1000) = wrap32 (m * 1000 + 1000))
  /\ (forall s : State,
        fst (micros (LPTIM1_IRQHandler s)) = wrap32 (fst (micros s) + 1000)
        /\ wrap32 (fst (micros (LPTIM1_IRQHandler s)) - fst (micros s))
           = 1000)
  /\ (forall (s : State) (k : nat),
        wrap32 (fst (micros (Nat.iter k LPTIM1_IRQHandler s))
                - fst (micros s))
        = wrap32 (1000 * Z.of_nat k)).
Proof.
  split; [|split].
  - intros m. rewrite wrap32_mul_l. f_equal. lia.
  - intros s. split; [apply micros_IRQHandler|].
    rewrite micros_IRQHandler, wrap32_sub_l.
    replace (fst (micros s) + 1000 - fst (micros s)) with 1000 by lia.
    reflexivity.
  - intros s k. rewrite micros_iter_IRQHandler, wrap32_sub_l.
    f_equal. lia.
Qed.

(** ** C5: [delayMs] across the wrap of the counter *)



Lemma millis_fst s : fst (millis s) = mem s _uptime_ms_cnt.
Proof. reflexivity. Qed.

Lemma delayMs_unfold d sched s :
  delayMs d sched s
  = delayMs_wait (mem s _uptime_ms_cnt) d sched (snd (millis s)).
Proof. reflexivity. Qed.




Example delayMs_3_near_wrap :
  option_map (fun r => (fst (millis (fst r)), snd r))
    (delayMs 3 [[]; [ev_irq]; [ev_irq]; []; [ev_irq]; [ev_irq]] near_wrap)
  = Some (1, [[ev_irq]]).
Proof. vm_compute. reflexivity. Qed.


(** ** C2: how far [micros] can be from [millis] times 1000 *)

Lemma micros_preempted_fst between s :
  fst (micros_preempted between s)
  = wrap32 (mem s _uptime_ms_cnt * 1000
            + mem (snd (micros_preempted between s)) LPTIM1_CNT).
Proof.
  unfold micros_preempted, read; cbn [fst snd mem].
  apply wrap32_add_l.
Qed.

(** C2, as stated, fails with no interrupt at all once the microsecond
    value wraps: at counter 4294967 and hardware count 999, [micros]
    returns 703 while [millis] times 1000 is 4294967000. *)
Lemma micros_composite_bound_fails_at_wrap :
  u32 (mem last_ms_before_micros_wrap _uptime_ms_cnt)
  /\ 0 <= mem last_ms_before_micros_wrap LPTIM1_CNT <= LPTIM_ARR_VALUE
  /\ fst (micros last_ms_before_micros_wrap) = 703
  /\ fst (millis (snd (micros last_ms_before_micros_wrap))) = 4294967
  /\ ~ composite_bound
         (fst (micros last_ms_before_micros_wrap))
         (fst (millis (snd (micros last_ms_before_micros_wrap)))).
Proof.
  split; [by_evaluation|].
  split; [by_evaluation|].
  split; [vm_compute; reflexivity|].
  split; [vm_compute; reflexivity|].
  replace (fst (micros last_ms_before_micros_wrap)) with 703
    by (vm_compute; reflexivity).
  replace (fst (millis (snd (micros last_ms_before_micros_wrap))))
    with 4294967 by (vm_compute; reflexivity).
  unfold composite_bound. lia.
Qed.

(** C2, amended.  Let the hardware count read by [micros] be within the
    reload period (at most 999).  Then [micros] is at most 999 ahead,
    modulo 2^32, of 1000 times the [millis] before the call, whatever
    happens between its two loads; with at most one run of the handler
    between the two loads it is within 1000, modulo 2^32, of 1000 times
    the [millis] after the call; and that is the bound over the integers
    as long as the microsecond value has not wrapped. *)
Theorem micros_within_one_period_modulo :
  forall (between : list hw_event) (s : State),
    u32 (mem s _uptime_ms_cnt) ->
    0 <= mem (snd (micros_preempted between s)) LPTIM1_CNT
      <= LPTIM_ARR_VALUE ->
    let us := fst (micros_preempted between s) in
    let before := fst (millis s) in
    let after := fst (millis (snd (micros_preempted between s))) in
    wrap32 (us - before * 1000) <= 999
    /\ (irq_count between <= 1 ->
        (wrap32 (us - after * 1000) <= 1000
         \/ wrap32 (after * 1000 - us) <= 1000)
        /\ ((before + 1) * 1000 + 1000 <= 2 ^ 32 ->
            composite_bound us after)).
Proof.
  intros between s Hu Hc us before after.
  assert (Eb : before = mem s _uptime_ms_cnt) by reflexivity.
  assert (Ea : after = wrap32 (before + irq_count between))
    by (subst after; unfold millis, read; cbn [fst];
        apply ms_micros_preempted; exact Hu).
  assert (Eu : us = wrap32 (before * 1000
                 + mem (snd (micros_preempted between s)) LPTIM1_CNT))
    by (subst us; apply micros_preempted_fst).
  set (n := mem (snd (micros_preempted between s)) LPTIM1_CNT) in *.
  unfold LPTIM_ARR_VALUE in Hc.
  assert (Hb : 0 <= before < 2 ^ 32) by (rewrite Eb; exact Hu).
  pose proof (irq_count_nonneg between) as Hk.
  split.
  - rewrite Eu, wrap32_sub_l.
    replace (before * 1000 + n - before * 1000) with n by lia.
    rewrite wrap32_small by lia. lia.
  - intros Hk1.
    assert (Hk01 : irq_count between = 0 \/ irq_count between = 1) by lia.
    split.
    + destruct Hk01 as [E | E]; rewrite E in Ea.
      * left. rewrite Z.add_0_r, wrap32_small in Ea by exact Hb.
        rewrite Eu, Ea, wrap32_sub_l.
        replace (before * 1000 + n - before * 1000) with n by lia.
        rewrite wrap32_small by lia. lia.
      * right. rewrite Eu, Ea, wrap32_sub_r.
        rewrite <- wrap32_sub_l, wrap32_mul_l, wrap32_sub_l.
        replace ((before + 1) * 1000 - (before * 1000 + n))
          with (1000 - n) by lia.
        rewrite wrap32_small by lia. lia.
    + intros Hfit. unfold composite_bound.
      rewrite Eu, wrap32_small by lia.
      destruct Hk01 as [E | E]; rewrite E in Ea;
        rewrite Ea, wrap32_small by lia; lia.
Qed.

(** One interrupt between the two loads, just before the counter wraps. *)
Lemma micros_within_one_period_modulo_witness :
  u32 (mem near_wrap _uptime_ms_cnt)
  /\ 0 <= mem (snd (micros_preempted [ev_irq; ev_cnt 7] near_wrap))
            LPTIM1_CNT <= LPTIM_ARR_VALUE
  /\ wrap32 (fst (micros_preempted [ev_irq; ev_cnt 7] near_wrap)
             - fst (millis near_wrap) * 1000) <= 999.
Proof.
  assert (Hu : u32 (mem near_wrap _uptime_ms_cnt))
    by by_evaluation.
  assert (Hc : 0 <= mem (snd (micros_preempted [ev_irq; ev_cnt 7]
                                 near_wrap)) LPTIM1_CNT
               <= LPTIM_ARR_VALUE)
    by by_evaluation.
  split; [exact Hu|]. split; [exact Hc|].
  exact (proj1 (micros_within_one_period_modulo
                  [ev_irq; ev_cnt 7] near_wrap Hu Hc)).
Defined.

(** ** C6: the wait for the oscillator in [UPTIME_Init] *)

Lemma UPTIME_Init_split sched s :
  UPTIME_Init sched s
  = match Init_clock_guard sched s with
    | None => None
    | Some (s1, rest) => Some (Init_configure s1, rest)
    end.
Proof. reflexivity. Qed.

Lemma log_Init_configure s :
  log (Init_configure s)
  = log s ++ Init_configure_log (mem s RCC_CCIPR) (mem s RCC_APB1ENR1).
Proof.
  unfold Init_configure, Init_configure_log, NVIC_EnableIRQ, MODIFY_REG,
    set_bits, read, write; cbn [log mem].
  rewrite <- !app_assoc. reflexivity.
Qed.

(** Testing one bit with a mask. *)
Lemma land_bit_eqb v k :
  0 <= k -> (Z.land v (Z.shiftl 1 k) =? 0) = negb (Z.testbit v k).
Proof.
  intros Hk. destruct (Z.testbit v k) eqn:Hb; cbn [negb].
  - apply Z.eqb_neq. intros H0.
    assert (Hc : Z.testbit (Z.land v (Z.shiftl 1 k)) k = true)
      by (rewrite Z.land_spec, testbit_bit, Hb, Z.eqb_refl by exact Hk;
          reflexivity).
    rewrite H0, Z.bits_0 in Hc. discriminate.
  - apply Z.eqb_eq. apply Z.bits_inj'. intros i Hi.
    rewrite Z.land_spec, testbit_bit, Z.bits_0 by exact Hk.
    destruct (i =? k) eqn:E; [|apply andb_false_r].
    apply Z.eqb_eq in E. subst i. now rewrite Hb.
Qed.

Lemma HSIRDY_land v :
  (Z.land v RCC_CR_HSIRDY =? 0) = negb (Z.testbit v 10).
Proof. unfold RCC_CR_HSIRDY. apply land_bit_eqb. lia. Qed.

Lemma HSIRDY_hw_step e s :
  HSIRDY_bit (hw_step e s)
  = match e with ev_hsirdy => true | _ => HSIRDY_bit s end.
Proof.
  destruct e; try reflexivity.
  unfold HSIRDY_bit. cbn [hw_step mem]. rewrite upd_same, Z.lor_spec.
  unfold RCC_CR_HSIRDY. rewrite testbit_bit by lia. apply orb_true_r.
Qed.

Lemma HSIRDY_stays es : forall s,
  HSIRDY_bit s = true -> HSIRDY_bit (hw_run es s) = true.
Proof.
  induction es as [|e es IH]; intros s H; cbn [hw_run]; [exact H|].
  apply IH. rewrite HSIRDY_hw_step. destruct e; auto.
Qed.

Lemma HSIRDY_raised es : forall s,
  In ev_hsirdy es -> HSIRDY_bit (hw_run es s) = true.
Proof.
  induction es as [|e es IH]; intros s Hin; [contradiction|].
  cbn [hw_run]. destruct Hin as [-> | Hin].
  - apply HSIRDY_stays. now rewrite HSIRDY_hw_step.
  - apply IH. exact Hin.
Qed.

Lemma HSIRDY_not_raised es : forall s,
  ~ In ev_hsirdy es -> HSIRDY_bit (hw_run es s) = HSIRDY_bit s.
Proof.
  induction es as [|e es IH]; intros s Hn; cbn [hw_run]; [reflexivity|].
  rewrite IH by (intros H; apply Hn; right; exact H).
  rewrite HSIRDY_hw_step. destruct e; try reflexivity.
  exfalso. apply Hn. left. reflexivity.
Qed.

(** If the ready flag is ever raised, the wait ends. *)
Lemma wait_HSIRDY_total : forall sched s,
  Exists (fun b => In ev_hsirdy b) sched ->
  exists s' rest, wait_HSIRDY sched s = Some (s', rest).
Proof.
  induction sched as [|b sched IH]; intros s H; [inversion H|].
  cbn [wait_HSIRDY]. unfold read.
  destruct (Z.land (mem (hw_run b s) RCC_CR) RCC_CR_HSIRDY =? 0) eqn:Hc.
  - inversion H as [? ? Hin | ? ? Hex]; subst.
    + rewrite HSIRDY_land in Hc.
      pose proof (HSIRDY_raised b s Hin) as Hr. unfold HSIRDY_bit in Hr.
      rewrite Hr in Hc. discriminate.
    + apply IH. exact Hex.
  - eexists _, _. reflexivity.
Qed.

(** If it is never raised, the wait does not end. *)
Lemma wait_HSIRDY_blocks : forall sched s,
  HSIRDY_bit s = false ->
  Forall (fun b => ~ In ev_hsirdy b) sched ->
  wait_HSIRDY sched s = None.
Proof.
  induction sched as [|b sched IH]; intros s Hb H; [reflexivity|].
  cbn [wait_HSIRDY]. unfold read.
  assert (Hb' : HSIRDY_bit (hw_run b s) = false)
    by (rewrite HSIRDY_not_raised by (inversion H; assumption); exact Hb).
  rewrite HSIRDY_land. unfold HSIRDY_bit in Hb'. rewrite Hb'. cbn [negb].
  apply IH; [exact Hb' | inversion H; assumption].
Qed.

(** C6, as stated, fails when the oscillator is already switched on but
    not yet ready: [UPTIME_Init] returns without a single poll, and none of
    its loads of [RCC->CR] returned the ready flag set. *)
Lemma Init_skips_ready_wait_when_HSION_set :
  Z.land (mem hsi_on_not_ready RCC_CR) RCC_CR_HSIRDY = 0
  /\ match UPTIME_Init [[]; []; [ev_hsirdy]] hsi_on_not_ready with
     | Some (s', rest) =>
         rest = [[]; []; [ev_hsirdy]]
         /\ ready_observed (log s') = false
         /\ Z.land (mem s' RCC_CR) RCC_CR_HSIRDY = 0
     | None => False
     end.
Proof. vm_compute. repeat split. Qed.

Example Init_waits_when_it_switches_HSI16_on :
  match UPTIME_Init [[]; []; [ev_hsirdy]; []] hsi_off with
  | Some (s', rest) => rest = [[]] /\ ready_observed (log s') = true
  | None => False
  end.
Proof. vm_compute. repeat split. Qed.

Lemma log_Reset_exact s :
  log (UPTIME_Reset s) = log s ++ Reset_accesses (mem s RCC_APB1RSTR1).
Proof.
  unfold UPTIME_Reset, Reset_accesses, and_bits, set_bits, read, write;
    cbn [log mem].
  rewrite <- !app_assoc. reflexivity.
Qed.

Lemma log_hw_step_wait e s :
  exists l, log (hw_step e s) = log s ++ l /\ forallb wait_access l = true.
Proof.
  destruct e; cbn [hw_step log].
  - eexists. split.
    + unfold LPTIM1_IRQHandler, read, write; cbn [log mem].
      rewrite <- !app_assoc. reflexivity.
    + reflexivity.
  - exists []. split; [now rewrite app_nil_r | reflexivity].
  - exists []. split; [now rewrite app_nil_r | reflexivity].
Qed.

Lemma log_hw_run_wait es : forall s,
  exists l, log (hw_run es s) = log s ++ l /\ forallb wait_access l = true.
Proof.
  induction es as [|e es IH]; intros s; cbn [hw_run].
  - exists []. split; [now rewrite app_nil_r | reflexivity].
  - destruct (IH (hw_step e s)) as (l2 & H2 & F2).
    destruct (log_hw_step_wait e s) as (l1 & H1 & F1).
    exists (l1 ++ l2). split.
    + now rewrite H2, H1, app_assoc.
    + rewrite forallb_app, F1, F2. reflexivity.
Qed.

Lemma clock_regs_hw_run es : forall s,
  mem (hw_run es s) RCC_CCIPR = mem s RCC_CCIPR
  /\ mem (hw_run es s) RCC_APB1ENR1 = mem s RCC_APB1ENR1.
Proof.
  induction es as [|e es IH]; intros s; cbn [hw_run]; [split; reflexivity|].
  destruct (IH (hw_step e s)) as [-> ->]. destruct e; split; reflexivity.
Qed.

(** The whole log of the wait: polls that show the flag clear and handler
    runs, then the one load that shows it set; the clock registers are as
    they were. *)
Lemma wait_HSIRDY_log : forall sched s s' rest,
  wait_HSIRDY sched s = Some (s', rest) ->
  exists polls v,
    log s' = log s ++ polls ++ [Rd RCC_CR v]
    /\ forallb wait_access polls = true
    /\ Z.land v RCC_CR_HSIRDY <> 0
    /\ mem s' RCC_CCIPR = mem s RCC_CCIPR
    /\ mem s' RCC_APB1ENR1 = mem s RCC_APB1ENR1.
Proof.
  induction sched as [|b sched IH]; intros s s' rest H; [discriminate|].
  cbn [wait_HSIRDY] in H. unfold read in H.
  destruct (log_hw_run_wait b s) as (lb & Hlb & Flb).
  destruct (clock_regs_hw_run b s) as [Ec Ee].
  destruct (Z.land (mem (hw_run b s) RCC_CR) RCC_CR_HSIRDY =? 0) eqn:Hc.
  - destruct (IH _ _ _ H) as (polls & v & Hl & Fp & Hv & Hc' & He').
    cbn [log mem] in Hl, Hc', He'.
    exists (lb ++ Rd RCC_CR (mem (hw_run b s) RCC_CR) :: polls), v.
    split; [rewrite Hl, Hlb, <- !app_assoc; reflexivity|].
    split; [rewrite forallb_app, Flb; cbn [forallb wait_access];
            rewrite Hc, Fp; reflexivity|].
    split; [exact Hv|]. split; congruence.
  - injection H as <- <-. apply Z.eqb_neq in Hc.
    exists lb, (mem (hw_run b s) RCC_CR). cbn [log mem].
    split; [rewrite Hlb, <- app_assoc; reflexivity|].
    split; [exact Flb|]. split; [exact Hc|]. split; assumption.
Qed.

(** C6, amended.  If the oscillator-enable bit is clear on entry,
    [UPTIME_Init] resets, loads [RCC->CR] for the test, sets the enable bit
    with a load and a store of [RCC->CR], and polls: until it returns its
    accesses are, in this order, those of the reset, these three, then
    nothing but loads of [RCC->CR] that show the ready flag clear and runs
    of the handler, then one load of [RCC->CR] that shows the ready flag
    set, and only then the clock selection and the rest of the
    configuration; it does return if the flag is ever raised, and it
    stays in the loop for as long as the flag is not raised.  If the enable
    bit is already set on entry, [UPTIME_Init] does not poll: after the
    reset it loads [RCC->CR] once, for the test of the enable bit, goes
    straight on to the clock selection and the rest of the configuration,
    and consumes none of the schedule. *)
Theorem Init_waits_for_ready_only_when_it_enables_HSI16 :
  forall (sched : schedule) (s : State),
    (Z.land (mem s RCC_CR) RCC_CR_HSION = 0 ->
       (forall s' rest,
          UPTIME_Init sched s = Some (s', rest) ->
          exists polls v,
            log s'
            = log s
              ++ Reset_accesses (mem s RCC_APB1RSTR1)
              ++ [Rd RCC_CR (mem s RCC_CR);
                  Rd RCC_CR (mem s RCC_CR);
                  Wr RCC_CR (Z.lor (mem s RCC_CR) RCC_CR_HSION)]
              ++ polls
              ++ [Rd RCC_CR v]
              ++ Init_configure_log (mem s RCC_CCIPR) (mem s RCC_APB1ENR1)
            /\ forallb wait_access polls = true
            /\ Z.land v RCC_CR_HSIRDY <> 0)
       /\ (Exists (fun b => In ev_hsirdy b) sched ->
           exists s' rest, UPTIME_Init sched s = Some (s', rest))
       /\ (Z.land (mem s RCC_CR) RCC_CR_HSIRDY = 0 ->
           Forall (fun b => ~ In ev_hsirdy b) sched ->
           UPTIME_Init sched s = None))
    /\ (Z.land (mem s RCC_CR) RCC_CR_HSION <> 0 ->
        exists s',
          UPTIME_Init sched s = Some (s', sched)
          /\ log s'
             = log s
               ++ Reset_accesses (mem s RCC_APB1RSTR1)
               ++ [Rd RCC_CR (mem s RCC_CR)]
               ++ Init_configure_log (mem s RCC_CCIPR)
                                     (mem s RCC_APB1ENR1)).
Proof.
  intros sched s. rewrite UPTIME_Init_split. unfold Init_clock_guard.
  change (read RCC_CR (UPTIME_Reset s))
    with (mem s RCC_CR, snd (read RCC_CR (UPTIME_Reset s))).
  cbn iota.
  set (s0 := snd (read RCC_CR (UPTIME_Reset s))).
  set (s1 := set_bits RCC_CR RCC_CR_HSION s0).
  assert (L0 : log s0 = log s ++ Reset_accesses (mem s RCC_APB1RSTR1)
                        ++ [Rd RCC_CR (mem s RCC_CR)]).
  { subst s0. unfold read. cbn [snd log].
    rewrite log_Reset_exact, <- app_assoc. reflexivity. }
  assert (L1 : log s1 = log s0 ++ [Rd RCC_CR (mem s RCC_CR);
                                   Wr RCC_CR (Z.lor (mem s RCC_CR)
                                                    RCC_CR_HSION)]).
  { subst s1. unfold set_bits, read, write. cbn [log mem].
    rewrite <- app_assoc. reflexivity. }
  split.
  - intros Hoff. apply Z.eqb_eq in Hoff. rewrite Hoff.
    split; [|split].
    + intros s' rest H.
      destruct (wait_HSIRDY sched s1) as [[s2 rest2]|] eqn:Hw;
        [|discriminate].
      injection H as <- <-.
      destruct (wait_HSIRDY_log _ _ _ _ Hw)
        as (polls & v & Hl & Fp & Hv & Ec & Ee).
      exists polls, v.
      split; [|split; [exact Fp | exact Hv]].
      rewrite log_Init_configure, Ec, Ee, Hl, L1, L0.
      change (mem s1 RCC_CCIPR) with (mem s RCC_CCIPR).
      change (mem s1 RCC_APB1ENR1) with (mem s RCC_APB1ENR1).
      rewrite <- !app_assoc. reflexivity.
    + intros Hex.
      destruct (wait_HSIRDY_total sched s1 Hex) as (s2 & rest & Hw).
      rewrite Hw. eexists _, _. reflexivity.
    + intros Hnr Hall. rewrite wait_HSIRDY_blocks; [reflexivity| |exact Hall].
      apply Z.eqb_eq in Hnr. rewrite HSIRDY_land in Hnr.
      subst s1 s0. unfold HSIRDY_bit, set_bits, read, write; cbn [mem snd].
      rewrite upd_same, Z.lor_spec. unfold RCC_CR_HSION.
      rewrite testbit_bit by lia. cbn [Z.eqb orb].
      change (mem (UPTIME_Reset s) RCC_CR) with (mem s RCC_CR).
      destruct (Z.testbit (mem s RCC_CR) 10); [discriminate | reflexivity].
  - intros Hon. apply Z.eqb_neq in Hon. rewrite Hon.
    exists (Init_configure s0). split; [reflexivity|].
    rewrite log_Init_configure, L0.
    change (mem s0 RCC_CCIPR) with (mem s RCC_CCIPR).
    change (mem s0 RCC_APB1ENR1) with (mem s RCC_APB1ENR1).
    rewrite <- !app_assoc. reflexivity.
Qed.

Example Init_log_when_it_switches_HSI16_on :
  option_map (fun r => log (fst r))
    (UPTIME_Init [[]; [ev_hsirdy]; []] hsi_off)
  = Some (Reset_accesses 0
          ++ [Rd RCC_CR 0; Rd RCC_CR 0; Wr RCC_CR RCC_CR_HSION]
          ++ [Rd RCC_CR RCC_CR_HSION]
          ++ [Rd RCC_CR (Z.lor RCC_CR_HSION RCC_CR_HSIRDY)]
          ++ Init_configure_log 0 0).
Proof. vm_compute. reflexivity. Qed.

(** * Further properties of the code *)

(** ** Bits above the register width *)

Lemma testbit_u32_high c i : u32 c -> 32 <= i -> Z.testbit c i = false.
Proof.
  intros Hc Hi. rewrite <- (wrap32_small c Hc). unfold wrap32.
  apply Z.mod_pow2_bits_high. lia.
Qed.

Lemma testbit_not32_high m i : 32 <= i -> Z.testbit (not32 m) i = false.
Proof.
  intros Hi. unfold not32, wrap32. apply Z.mod_pow2_bits_high. lia.
Qed.

Lemma testbit_not32_any m i :
  0 <= i -> Z.testbit (not32 m) i = (i <? 32) && negb (Z.testbit m i).
Proof.
  intros Hi. destruct (i <? 32) eqn:E.
  - apply Z.ltb_lt in E. rewrite testbit_not32 by lia. reflexivity.
  - apply Z.ltb_ge in E. rewrite testbit_not32_high by lia. reflexivity.
Qed.

Lemma u32_land_r x y : u32 y -> u32 (Z.land x y).
Proof.
  intros Hy.
  assert (E : Z.land x y = wrap32 (Z.land x y)).
  { unfold wrap32. rewrite <- Z.land_ones by lia.
    rewrite <- Z.land_assoc, (Z.land_ones y) by lia.
    fold (wrap32 y). now rewrite (wrap32_small y Hy). }
  rewrite E. apply wrap32_range.
Qed.

Lemma u32_land_l x y : u32 x -> u32 (Z.land x y).
Proof. intros H. rewrite Z.land_comm. now apply u32_land_r. Qed.

Lemma u32_not32 m : u32 (not32 m).
Proof. apply wrap32_range. Qed.

(** Equality of two register values from their bits, below and above the
    register width. *)
Lemma bits32_eq a b :
  (forall i, 0 <= i -> Z.testbit a i = Z.testbit b i) -> a = b.
Proof. apply Z.bits_inj'. Qed.

Ltac bits i :=
  apply bits32_eq; intros i ?;
  repeat first [ rewrite Z.land_spec | rewrite Z.lor_spec
               | rewrite testbit_not32_any by assumption ].

(** ** Reset: what it leaves alone, and doing it twice *)

Lemma mem_Reset_RSTR s :
  mem (UPTIME_Reset s) RCC_APB1RSTR1
  = Z.land (Z.lor (mem s RCC_APB1RSTR1) RCC_APB1RSTR1_LPTIM1RST)
           (not32 RCC_APB1RSTR1_LPTIM1RST).
Proof. reflexivity. Qed.

Lemma mem_Reset_other s r :
  r <> _uptime_ms_cnt -> r <> RCC_APB1RSTR1 ->
  mem (UPTIME_Reset s) r = mem s r.
Proof. intros H1 H2. destruct r; try contradiction; reflexivity. Qed.

Lemma pulse_clears_bit v m :
  Z.land (Z.lor v m) (not32 m) = Z.land v (not32 m).
Proof.
  bits i.
  destruct (Z.testbit v i), (Z.testbit m i), (i <? 32); reflexivity.
Qed.

Lemma pulse_twice v m :
  Z.land (Z.lor (Z.land (Z.lor v m) (not32 m)) m) (not32 m)
  = Z.land (Z.lor v m) (not32 m).
Proof.
  bits i.
  destruct (Z.testbit v i), (Z.testbit m i), (i <? 32); reflexivity.
Qed.

Lemma land_not32_clear v k :
  u32 v -> 0 <= k -> Z.testbit v k = false ->
  Z.land v (not32 (Z.shiftl 1 k)) = v.
Proof.
  intros Hv Hk Hb. bits i. rewrite testbit_bit by exact Hk.
  destruct (i =? k) eqn:E.
  - apply Z.eqb_eq in E. subst i. rewrite Hb. reflexivity.
  - destruct (i <? 32) eqn:E32; cbn [negb andb].
    + apply andb_true_r.
    + apply Z.ltb_ge in E32. rewrite (testbit_u32_high v i Hv E32).
      reflexivity.
Qed.

(** X1.  Outside the registers of the timer itself, which the reset line
    hands back to the hardware, [UPTIME_Reset] changes no location but the
    millisecond counter and [RCC->APB1RSTR1]: the clock control, clock
    selection and bus clock gate registers and the interrupt line enable
    are as they were.  [RCC->APB1RSTR1] comes back without the reset bit of
    the timer and otherwise unchanged, so exactly as it was when that bit
    was clear; and a second reset straight after the first leaves all these
    locations as the first left them. *)
Theorem Reset_frame_and_idempotent :
  forall s : State,
    u32 (mem s RCC_APB1RSTR1) ->
    (forall r, is_LPTIM1 r = false ->
               r <> _uptime_ms_cnt -> r <> RCC_APB1RSTR1 ->
               mem (UPTIME_Reset s) r = mem s r)
    /\ (Z.testbit (mem s RCC_APB1RSTR1) 31 = false ->
        mem (UPTIME_Reset s) RCC_APB1RSTR1 = mem s RCC_APB1RSTR1)
    /\ mem (UPTIME_Reset s) RCC_APB1RSTR1
       = Z.land (mem s RCC_APB1RSTR1) (not32 RCC_APB1RSTR1_LPTIM1RST)
    /\ (forall r, is_LPTIM1 r = false ->
                  mem (UPTIME_Reset (UPTIME_Reset s)) r
                  = mem (UPTIME_Reset s) r).
Proof.
  intros s Hu. split; [|split; [|split]].
  - intros r _ H1 H2. apply mem_Reset_other; assumption.
  - intros Hb. rewrite mem_Reset_RSTR, pulse_clears_bit.
    unfold RCC_APB1RSTR1_LPTIM1RST.
    apply land_not32_clear; [exact Hu | lia | exact Hb].
  - rewrite mem_Reset_RSTR. apply pulse_clears_bit.
  - intros r _.
    destruct (reg_eqb r _uptime_ms_cnt) eqn:E1;
      [apply reg_eqb_eq in E1; subst r; reflexivity|].
    destruct (reg_eqb r RCC_APB1RSTR1) eqn:E2.
    + apply reg_eqb_eq in E2. subst r.
      rewrite (mem_Reset_RSTR (UPTIME_Reset s)), mem_Reset_RSTR.
      apply pulse_twice.
    + apply mem_Reset_other; intros ->;
        [rewrite reg_eqb_refl in E1 | rewrite reg_eqb_refl in E2];
        discriminate.
Qed.

(** The bus clock gate of a running timer stays open across a reset. *)
Lemma Reset_frame_and_idempotent_witness :
  u32 (mem running RCC_APB1RSTR1)
  /\ mem (UPTIME_Reset running) RCC_APB1ENR1 = mem running RCC_APB1ENR1.
Proof.
  assert (Hu : u32 (mem running RCC_APB1RSTR1)) by by_evaluation.
  split; [exact Hu|].
  apply (proj1 (Reset_frame_and_idempotent running Hu));
    [reflexivity | discriminate | discriminate].
Defined.

(** ** Suspend and resume, one after the other *)

Lemma mem_Suspend_CR s :
  mem (UPTIME_Suspend s) LPTIM1_CR
  = Z.land (mem s LPTIM1_CR) (not32 LPTIM_CR_ENABLE).
Proof. reflexivity. Qed.

Lemma mem_Resume_CR s :
  mem (UPTIME_Resume s) LPTIM1_CR
  = Z.lor (Z.lor (mem s LPTIM1_CR) LPTIM_CR_ENABLE) LPTIM_CR_CNTSTRT.
Proof. reflexivity. Qed.

Lemma mem_Suspend_other s r :
  r <> LPTIM1_CR -> mem (UPTIME_Suspend s) r = mem s r.
Proof. intros H. destruct r; try contradiction; reflexivity. Qed.

Lemma mem_Resume_other s r :
  r <> LPTIM1_CR -> mem (UPTIME_Resume s) r = mem s r.
Proof. intros H. destruct r; try contradiction; reflexivity. Qed.

(** X2.  A resume after a suspend leaves the store as a resume alone
    would; a suspend after a resume leaves the timer disabled with the
    counter-start bit still set; and suspending twice, or resuming twice,
    is the same as doing it once. *)
Theorem Suspend_Resume_compose :
  forall s : State,
    u32 (mem s LPTIM1_CR) ->
    (forall r, mem (UPTIME_Resume (UPTIME_Suspend s)) r
               = mem (UPTIME_Resume s) r)
    /\ (forall r, mem (UPTIME_Suspend (UPTIME_Suspend s)) r
                  = mem (UPTIME_Suspend s) r)
    /\ (forall r, mem (UPTIME_Resume (UPTIME_Resume s)) r
                  = mem (UPTIME_Resume s) r)
    /\ Z.testbit (mem (UPTIME_Suspend (UPTIME_Resume s)) LPTIM1_CR) 0 = false
    /\ Z.testbit (mem (UPTIME_Suspend (UPTIME_Resume s)) LPTIM1_CR) 2 = true.
Proof.
  intros s Hu.
  assert (Hcase : forall r, r = LPTIM1_CR \/ r <> LPTIM1_CR)
    by (intros r; destruct r; (left; reflexivity) || (right; discriminate)).
  split; [|split; [|split; [|split]]].
  - intros r. destruct (Hcase r) as [-> | Hr].
    + rewrite !mem_Resume_CR, mem_Suspend_CR.
      unfold LPTIM_CR_ENABLE, LPTIM_CR_CNTSTRT. bits i.
      rewrite !testbit_bit by lia.
      destruct (i <? 32) eqn:E32; destruct (i =? 0), (i =? 2);
        rewrite ?andb_true_r, ?andb_false_r, ?orb_true_r, ?orb_false_r;
        cbn [negb andb orb]; rewrite ?orb_false_r; try reflexivity.
      apply Z.ltb_ge in E32. symmetry. apply testbit_u32_high; assumption.
    + rewrite !mem_Resume_other, mem_Suspend_other by exact Hr. reflexivity.
  - intros r. destruct (Hcase r) as [-> | Hr].
    + rewrite !mem_Suspend_CR, <- Z.land_assoc, Z.land_diag. reflexivity.
    + rewrite !mem_Suspend_other by exact Hr. reflexivity.
  - intros r. destruct (Hcase r) as [-> | Hr].
    + rewrite !mem_Resume_CR. unfold LPTIM_CR_ENABLE, LPTIM_CR_CNTSTRT.
      bits i. rewrite !testbit_bit by lia.
      destruct (Z.testbit (mem s LPTIM1_CR) i), (i =? 0), (i =? 2);
        reflexivity.
    + rewrite !mem_Resume_other by exact Hr. reflexivity.
  - rewrite mem_Suspend_CR, mem_Resume_CR, Z.land_spec, testbit_not32 by lia.
    unfold LPTIM_CR_ENABLE. rewrite testbit_bit by lia. apply andb_false_r.
  - rewrite mem_Suspend_CR, mem_Resume_CR, Z.land_spec, testbit_not32,
      !Z.lor_spec by lia.
    unfold LPTIM_CR_ENABLE, LPTIM_CR_CNTSTRT. rewrite !testbit_bit by lia.
    cbn [Z.eqb]. rewrite orb_true_r. reflexivity.
Qed.

Lemma Suspend_Resume_compose_witness :
  u32 (mem running LPTIM1_CR)
  /\ mem (UPTIME_Resume (UPTIME_Suspend running)) LPTIM1_CR
     = mem (UPTIME_Resume running) LPTIM1_CR.
Proof.
  assert (Hu : u32 (mem running LPTIM1_CR)) by by_evaluation.
  split; [exact Hu|].
  apply (proj1 (Suspend_Resume_compose running Hu)).
Defined.

(** ** What [UPTIME_Init] leaves behind *)

Lemma mem_hw_step_other e s r :
  r <> _uptime_ms_cnt -> r <> LPTIM1_ISR -> r <> LPTIM1_CNT -> r <> RCC_CR ->
  mem (hw_step e s) r = mem s r.
Proof.
  intros H1 H2 H3 H4. destruct e; destruct r; try contradiction; reflexivity.
Qed.

Lemma mem_hw_run_other es r : forall s,
  r <> _uptime_ms_cnt -> r <> LPTIM1_ISR -> r <> LPTIM1_CNT -> r <> RCC_CR ->
  mem (hw_run es s) r = mem s r.
Proof.
  induction es as [|e es IH]; intros s H1 H2 H3 H4; cbn [hw_run];
    [reflexivity|].
  rewrite IH, mem_hw_step_other by assumption. reflexivity.
Qed.

Lemma HSION_hw_step e s :
  Z.testbit (mem (hw_step e s) RCC_CR) 8 = Z.testbit (mem s RCC_CR) 8.
Proof.
  destruct e; try reflexivity.
  cbn [hw_step mem]. rewrite upd_same, Z.lor_spec.
  unfold RCC_CR_HSIRDY. rewrite testbit_bit by lia. apply orb_false_r.
Qed.

Lemma HSION_hw_run es : forall s,
  Z.testbit (mem (hw_run es s) RCC_CR) 8 = Z.testbit (mem s RCC_CR) 8.
Proof.
  induction es as [|e es IH]; intros s; cbn [hw_run]; [reflexivity|].
  now rewrite IH, HSION_hw_step.
Qed.

(** What the wait keeps and what it lets pass. *)
Lemma wait_HSIRDY_effect : forall sched s s' rest,
  u32 (mem s _uptime_ms_cnt) ->
  wait_HSIRDY sched s = Some (s', rest) ->
  (forall r, r <> _uptime_ms_cnt -> r <> LPTIM1_ISR -> r <> LPTIM1_CNT ->
             r <> RCC_CR -> mem s' r = mem s r)
  /\ Z.testbit (mem s' RCC_CR) 8 = Z.testbit (mem s RCC_CR) 8
  /\ Z.testbit (mem s' RCC_CR) 10 = true
  /\ exists used,
       sched = used ++ rest /\ used <> []
       /\ mem s' _uptime_ms_cnt
          = wrap32 (mem s _uptime_ms_cnt + ticks_of used).
Proof.
  induction sched as [|b sched IH]; intros s s' rest Hu H; [discriminate|].
  cbn [wait_HSIRDY] in H. unfold read in H.
  assert (Hms : mem (hw_run b s) _uptime_ms_cnt
                = wrap32 (mem s _uptime_ms_cnt + irq_count b))
    by (apply ms_hw_run; exact Hu).
  destruct (Z.land (mem (hw_run b s) RCC_CR) RCC_CR_HSIRDY =? 0) eqn:Hc.
  - apply IH in H; [|cbn [mem]; rewrite Hms; apply wrap32_range].
    cbn [mem] in H. destruct H as (Hf & H8 & H10 & used & Es & _ & Em).
    split; [|split; [|split]].
    + intros r H1 H2 H3 H4. rewrite Hf by assumption.
      apply mem_hw_run_other; assumption.
    + rewrite H8. apply HSION_hw_run.
    + exact H10.
    + exists (b :: used). cbn [ticks_of].
      split; [rewrite Es; reflexivity|]. split; [discriminate|].
      rewrite Em, Hms, wrap32_add_l. f_equal. lia.
  - injection H as <- <-. cbn [mem].
    split; [|split; [|split]].
    + intros r H1 H2 H3 H4. apply mem_hw_run_other; assumption.
    + apply HSION_hw_run.
    + rewrite HSIRDY_land in Hc.
      destruct (Z.testbit (mem (hw_run b s) RCC_CR) 10);
        [reflexivity | discriminate].
    + exists [b]. cbn [ticks_of]. rewrite Z.add_0_r.
      split; [reflexivity|]. split; [discriminate | exact Hms].
Qed.

Lemma LPTIM1SEL_bits i :
  0 <= i ->
  Z.testbit RCC_CCIPR_LPTIM1SEL i = (i =? 18) || (i =? 19).
Proof.
  intros Hi.
  change RCC_CCIPR_LPTIM1SEL with (Z.lor (Z.shiftl 1 18) (Z.shiftl 1 19)).
  rewrite Z.lor_spec, !testbit_bit by lia. reflexivity.
Qed.

Lemma LPTIM1SEL_1_bits i : Z.testbit RCC_CCIPR_LPTIM1SEL_1 i = (i =? 19).
Proof.
  change RCC_CCIPR_LPTIM1SEL_1 with (Z.shiftl 1 19).
  apply testbit_bit. lia.
Qed.

Lemma Init_configure_effect s :
  mem (Init_configure s) LPTIM1_CFGR = LPTIM_CFGR_PRESC_2
  /\ mem (Init_configure s) LPTIM1_IER = LPTIM_IER_ARRMIE
  /\ mem (Init_configure s) LPTIM1_CR
     = Z.lor LPTIM_CR_ENABLE LPTIM_CR_CNTSTRT
  /\ mem (Init_configure s) LPTIM1_ARR = LPTIM_ARR_VALUE
  /\ mem (Init_configure s) NVIC_LPTIM1 = 1
  /\ mem (Init_configure s) RCC_CCIPR
     = Z.lor (Z.land (mem s RCC_CCIPR) (not32 RCC_CCIPR_LPTIM1SEL))
             RCC_CCIPR_LPTIM1SEL_1
  /\ mem (Init_configure s) RCC_APB1ENR1
     = Z.lor (mem s RCC_APB1ENR1) RCC_APB1ENR1_LPTIM1EN
  /\ forall r, r <> LPTIM1_CFGR -> r <> LPTIM1_IER -> r <> LPTIM1_CR ->
               r <> LPTIM1_ARR -> r <> NVIC_LPTIM1 -> r <> RCC_CCIPR ->
               r <> RCC_APB1ENR1 -> mem (Init_configure s) r = mem s r.
Proof.
  repeat split.
  intros r H1 H2 H3 H4 H5 H6 H7. destruct r; try contradiction; reflexivity.
Qed.

Lemma HSION_land v :
  (Z.land v RCC_CR_HSION =? 0) = negb (Z.testbit v 8).
Proof. unfold RCC_CR_HSION. apply land_bit_eqb. lia. Qed.

Lemma Init_clock_guard_effect sched s s1 rest :
  Init_clock_guard sched s = Some (s1, rest) ->
  (forall r, r <> _uptime_ms_cnt -> r <> LPTIM1_ISR -> r <> LPTIM1_CNT ->
             r <> RCC_CR -> r <> RCC_APB1RSTR1 -> mem s1 r = mem s r)
  /\ Z.testbit (mem s1 RCC_CR) 8 = true
  /\ (Z.testbit (mem s RCC_CR) 8 = false ->
      Z.testbit (mem s1 RCC_CR) 10 = true)
  /\ exists used,
       sched = used ++ rest
       /\ mem s1 _uptime_ms_cnt = wrap32 (ticks_of used).
Proof.
  unfold Init_clock_guard.
  change (read RCC_CR (UPTIME_Reset s))
    with (mem s RCC_CR, snd (read RCC_CR (UPTIME_Reset s))).
  cbn iota. rewrite HSION_land.
  set (s0 := snd (read RCC_CR (UPTIME_Reset s))).
  assert (Hf0 : forall r, r <> _uptime_ms_cnt -> r <> RCC_APB1RSTR1 ->
                          mem s0 r = mem s r)
    by (intros r H1 H2; apply mem_Reset_other; assumption).
  destruct (Z.testbit (mem s RCC_CR) 8) eqn:Hon; cbn [negb]; intros H.
  - injection H as <- <-.
    split; [|split; [|split]].
    + intros r H1 _ _ _ H5. apply Hf0; assumption.
    + rewrite Hf0 by discriminate. exact Hon.
    + discriminate.
    + exists []. split; reflexivity.
  - apply wait_HSIRDY_effect in H; [|by_evaluation].
    destruct H as (Hf & H8 & H10 & used & Es & _ & Em).
    split; [|split; [|split]].
    + intros r H1 H2 H3 H4 H5. rewrite Hf by assumption.
      rewrite mem_set_bits_other by (congruence || discriminate).
      apply Hf0; assumption.
    + rewrite H8, mem_set_bits_same, Z.lor_spec by discriminate.
      unfold RCC_CR_HSION. rewrite testbit_bit by lia. apply orb_true_r.
    + intros _. exact H10.
    + exists used. split; [exact Es|]. rewrite Em. reflexivity.
Qed.

Lemma HSION_after_Init sched s s' rest :
  UPTIME_Init sched s = Some (s', rest) ->
  Z.testbit (mem s' RCC_CR) 8 = true.
Proof.
  intros H. rewrite UPTIME_Init_split in H.
  destruct (Init_clock_guard sched s) as [[s1 rest1]|] eqn:Hg;
    [|discriminate].
  injection H as <- <-.
  destruct (Init_clock_guard_effect _ _ _ _ Hg) as (_ & H8 & _).
  exact H8.
Qed.

(** X4.  When [UPTIME_Init] returns, the timer is configured whatever the
    state it started from and whatever happened while it waited: prescaler
    /16, reload-match interrupt enabled and no other, enable and
    counter-start set in the control register and nothing else, reload
    value 999, interrupt line enabled, clock source field of [RCC->CCIPR]
    at binary 10 and bus clock gate open with the other bits of both
    registers as they were, HSI16 switched on; and [millis] returns the
    number of handler runs that happened during the wait, modulo 2^32. *)
Theorem Init_configures_timer :
  forall (sched : schedule) (s s' : State) (rest : schedule),
    UPTIME_Init sched s = Some (s', rest) ->
    mem s' LPTIM1_CFGR = LPTIM_CFGR_PRESC_2
    /\ mem s' LPTIM1_IER = LPTIM_IER_ARRMIE
    /\ mem s' LPTIM1_CR = Z.lor LPTIM_CR_ENABLE LPTIM_CR_CNTSTRT
    /\ mem s' LPTIM1_ARR = 999
    /\ mem s' NVIC_LPTIM1 = 1
    /\ (forall i, 0 <= i < 32 ->
          Z.testbit (mem s' RCC_CCIPR) i
          = if i =? 19 then true
            else if i =? 18 then false
            else Z.testbit (mem s RCC_CCIPR) i)
    /\ (forall i, 0 <= i ->
          Z.testbit (mem s' RCC_APB1ENR1) i
          = if i =? 31 then true else Z.testbit (mem s RCC_APB1ENR1) i)
    /\ Z.testbit (mem s' RCC_CR) 8 = true
    /\ exists used,
         sched = used ++ rest
         /\ fst (millis s') = wrap32 (ticks_of used).
Proof.
  intros sched s s' rest H. rewrite UPTIME_Init_split in H.
  destruct (Init_clock_guard sched s) as [[s1 rest1]|] eqn:Hg;
    [|discriminate].
  injection H as <- <-.
  destruct (Init_clock_guard_effect _ _ _ _ Hg)
    as (Hf & H8 & _ & used & Es & Em).
  destruct (Init_configure_effect s1)
    as (E1 & E2 & E3 & E4 & E5 & E6 & E7 & Ef).
  repeat match goal with |- _ /\ _ => split end;
    try assumption.
  - intros i Hi. rewrite E6, Z.lor_spec, Z.land_spec, testbit_not32 by exact Hi.
    rewrite LPTIM1SEL_bits, LPTIM1SEL_1_bits by lia.
    rewrite Hf by discriminate.
    destruct (i =? 19) eqn:E19.
    + apply orb_true_r.
    + destruct (i =? 18); cbn [orb negb];
        rewrite ?andb_false_r, ?andb_true_r, ?orb_false_r; reflexivity.
  - intros i Hi. rewrite E7, Z.lor_spec, Hf by discriminate.
    unfold RCC_APB1ENR1_LPTIM1EN. rewrite testbit_bit by lia.
    destruct (i =? 31); [apply orb_true_r | apply orb_false_r].
  - exists used. split; [exact Es|].
    rewrite millis_fst, Ef by discriminate. exact Em.
Qed.

Lemma Init_configures_timer_witness :
  exists s' rest,
    UPTIME_Init [[]; [ev_irq]; [ev_hsirdy]; []] boot = Some (s', rest)
    /\ mem s' LPTIM1_ARR = 999.
Proof.
  destruct (UPTIME_Init [[]; [ev_irq]; [ev_hsirdy]; []] boot)
    as [[s' rest]|] eqn:E.
  - exists s', rest. split; [reflexivity|].
    apply (Init_configures_timer _ _ _ _ E).
  - vm_compute in E. discriminate.
Defined.

Example Init_counts_ticks_during_wait :
  option_map (fun r => (fst (millis (fst r)), snd r))
    (UPTIME_Init [[]; [ev_irq]; [ev_hsirdy]; []] boot)
  = Some (1, [[]]).
Proof. vm_compute. reflexivity. Qed.

(** ** How long [UPTIME_Init] waits *)

Lemma wait_HSIRDY_prompt : forall pre b rest s,
  HSIRDY_bit s = false ->
  Forall (fun b => ~ In ev_hsirdy b) pre ->
  In ev_hsirdy b ->
  exists s', wait_HSIRDY (pre ++ b :: rest) s = Some (s', rest).
Proof.
  induction pre as [|a pre IH]; intros b rest s Hb Hpre Hin;
    cbn [app wait_HSIRDY]; unfold read; rewrite HSIRDY_land.
  - pose proof (HSIRDY_raised b s Hin) as Hr. unfold HSIRDY_bit in Hr.
    rewrite Hr. cbn [negb]. eexists. reflexivity.
  - assert (Ha : HSIRDY_bit (hw_run a s) = false)
      by (rewrite HSIRDY_not_raised by (inversion Hpre; assumption);
          exact Hb).
    unfold HSIRDY_bit in Ha. rewrite Ha. cbn [negb].
    apply IH; [exact Ha | inversion Hpre; assumption | exact Hin].
Qed.

(** X5.  If HSI16 is off and not ready on entry, and the ready flag is
    first raised before the poll number n of the schedule, [UPTIME_Init]
    returns at that poll: it has consumed exactly n batches and leaves the
    rest. *)
Theorem Init_returns_at_first_ready_poll :
  forall (pre : schedule) (b : list hw_event) (rest : schedule) (s : State),
    Z.land (mem s RCC_CR) RCC_CR_HSION = 0 ->
    Z.land (mem s RCC_CR) RCC_CR_HSIRDY = 0 ->
    Forall (fun b => ~ In ev_hsirdy b) pre ->
    In ev_hsirdy b ->
    exists s', UPTIME_Init (pre ++ b :: rest) s = Some (s', rest).
Proof.
  intros pre b rest s Hon Hrdy Hpre Hin.
  rewrite UPTIME_Init_split. unfold Init_clock_guard.
  change (read RCC_CR (UPTIME_Reset s))
    with (mem s RCC_CR, snd (read RCC_CR (UPTIME_Reset s))).
  cbn iota. apply Z.eqb_eq in Hon. rewrite Hon.
  set (s1 := set_bits RCC_CR RCC_CR_HSION
               (snd (read RCC_CR (UPTIME_Reset s)))).
  assert (Hb : HSIRDY_bit s1 = false).
  { apply Z.eqb_eq in Hrdy. rewrite HSIRDY_land in Hrdy.
    subst s1. unfold HSIRDY_bit. rewrite mem_set_bits_same by discriminate.
    rewrite Z.lor_spec. unfold RCC_CR_HSION. rewrite testbit_bit by lia.
    cbn [Z.eqb]. rewrite orb_false_r.
    change (mem (snd (read RCC_CR (UPTIME_Reset s))) RCC_CR)
      with (mem s RCC_CR).
    destruct (Z.testbit (mem s RCC_CR) 10); [discriminate | reflexivity]. }
  destruct (wait_HSIRDY_prompt pre b rest s1 Hb Hpre Hin) as (s2 & Hw).
  rewrite Hw. eexists. reflexivity.
Qed.

Lemma Init_returns_at_first_ready_poll_witness :
  exists s', UPTIME_Init ([[]; [ev_irq; ev_cnt 5]] ++ [ev_hsirdy] :: [[]; []])
               boot = Some (s', [[]; []]).
Proof.
  apply (Init_returns_at_first_ready_poll
           [[]; [ev_irq; ev_cnt 5]] [ev_hsirdy] [[]; []] boot).
  - reflexivity.
  - reflexivity.
  - repeat constructor; simpl; intros H;
      repeat (destruct H as [H | H]; [discriminate|]); exact H.
  - left. reflexivity.
Defined.

(** ** Deinitialise, then initialise again *)

Lemma mem_IRQHandler s r :
  mem (LPTIM1_IRQHandler s) r
  = match r with
    | LPTIM1_ISR =>
        Z.land (mem s LPTIM1_ISR)
               (not32 (Z.lor LPTIM_ICR_ARRMCF LPTIM_ICR_CMPMCF))
    | _uptime_ms_cnt => wrap32 (mem s _uptime_ms_cnt + 1)
    | _ => mem s r
    end.
Proof. destruct r; reflexivity. Qed.

Lemma same_but_gates_hw_step e s1 s2 :
  same_but_gates s1 s2 -> same_but_gates (hw_step e s1) (hw_step e s2).
Proof.
  intros [Hf He]. split.
  - intros r H1 H2. destruct e; cbn [hw_step mem].
    + rewrite !mem_IRQHandler.
      destruct r; rewrite ?(Hf LPTIM1_ISR), ?(Hf _uptime_ms_cnt)
        by discriminate; try reflexivity; apply Hf; assumption.
    + unfold upd. destruct (reg_eqb LPTIM1_CNT r); [reflexivity|].
      apply Hf; assumption.
    + unfold upd. destruct (reg_eqb RCC_CR r).
      * rewrite (Hf RCC_CR) by discriminate. reflexivity.
      * apply Hf; assumption.
  - destruct e; exact He.
Qed.

Lemma same_but_gates_hw_run es : forall s1 s2,
  same_but_gates s1 s2 -> same_but_gates (hw_run es s1) (hw_run es s2).
Proof.
  induction es as [|e es IH]; intros s1 s2 H; cbn [hw_run]; [exact H|].
  apply IH, same_but_gates_hw_step, H.
Qed.

Lemma same_but_gates_wait : forall sched s1 s2,
  same_but_gates s1 s2 ->
  match wait_HSIRDY sched s1, wait_HSIRDY sched s2 with
  | Some (a, ra), Some (b, rb) => ra = rb /\ same_but_gates a b
  | None, None => True
  | _, _ => False
  end.
Proof.
  induction sched as [|b sched IH]; intros s1 s2 H; cbn [wait_HSIRDY];
    [exact I|].
  unfold read.
  pose proof (same_but_gates_hw_run b _ _ H) as Hb.
  rewrite (proj1 Hb RCC_CR) by discriminate.
  destruct (Z.land (mem (hw_run b s2) RCC_CR) RCC_CR_HSIRDY =? 0).
  - apply IH. exact Hb.
  - split; [reflexivity | exact Hb].
Qed.

Lemma same_but_gates_configure a b :
  same_but_gates a b ->
  forall r, mem (Init_configure a) r = mem (Init_configure b) r.
Proof.
  intros [Hf He] r.
  destruct (Init_configure_effect a)
    as (A1 & A2 & A3 & A4 & A5 & A6 & A7 & Af).
  destruct (Init_configure_effect b)
    as (B1 & B2 & B3 & B4 & B5 & B6 & B7 & Bf).
  destruct r;
    first [ rewrite Af, Bf by discriminate; apply Hf; discriminate
          | congruence
          | rewrite A6, B6, (Hf RCC_CCIPR) by discriminate; reflexivity
          | rewrite A7, B7; exact He ].
Qed.

Lemma gate_reopened e m :
  u32 e -> Z.lor (Z.land e (not32 m)) m = Z.lor e m.
Proof.
  intros He. bits i.
  destruct (i <? 32) eqn:E32.
  - destruct (Z.testbit e i), (Z.testbit m i); reflexivity.
  - apply Z.ltb_ge in E32. rewrite (testbit_u32_high e i He E32).
    reflexivity.
Qed.

(** X6.  [UPTIME_DeInit] followed by [UPTIME_Init] behaves as
    [UPTIME_Init] alone: under the same schedule both block or both
    return, after the same number of polls, with the same value in every
    location. *)
Theorem DeInit_then_Init_is_Init :
  forall (sched : schedule) (s : State),
    u32 (mem s RCC_APB1ENR1) ->
    match UPTIME_Init sched (UPTIME_DeInit s), UPTIME_Init sched s with
    | Some (a, ra), Some (b, rb) => ra = rb /\ forall r, mem a r = mem b r
    | None, None => True
    | _, _ => False
    end.
Proof.
  intros sched s Hu. rewrite !UPTIME_Init_split. unfold Init_clock_guard.
  change (read RCC_CR (UPTIME_Reset (UPTIME_DeInit s)))
    with (mem s RCC_CR, snd (read RCC_CR (UPTIME_Reset (UPTIME_DeInit s)))).
  change (read RCC_CR (UPTIME_Reset s))
    with (mem s RCC_CR, snd (read RCC_CR (UPTIME_Reset s))).
  cbn iota.
  assert (H0 : same_but_gates (snd (read RCC_CR (UPTIME_Reset (UPTIME_DeInit s))))
                              (snd (read RCC_CR (UPTIME_Reset s)))).
  { split.
    - intros r H1 H2. cbn [read snd mem].
      destruct r; try contradiction; try reflexivity.
      rewrite !mem_Reset_RSTR.
      change (mem (UPTIME_DeInit s) RCC_APB1RSTR1)
        with (mem (UPTIME_Reset s) RCC_APB1RSTR1).
      rewrite mem_Reset_RSTR. apply pulse_twice.
    - cbn [read snd mem].
      change (mem (UPTIME_Reset (UPTIME_DeInit s)) RCC_APB1ENR1)
        with (Z.land (mem s RCC_APB1ENR1) (not32 RCC_APB1ENR1_LPTIM1EN)).
      change (mem (UPTIME_Reset s) RCC_APB1ENR1) with (mem s RCC_APB1ENR1).
      apply gate_reopened. exact Hu. }
  destruct (Z.land (mem s RCC_CR) RCC_CR_HSION =? 0).
  - assert (H1 : same_but_gates
                   (set_bits RCC_CR RCC_CR_HSION
                      (snd (read RCC_CR (UPTIME_Reset (UPTIME_DeInit s)))))
                   (set_bits RCC_CR RCC_CR_HSION
                      (snd (read RCC_CR (UPTIME_Reset s))))).
    { destruct H0 as [Hf He]. split.
      - intros r H1 H2. destruct (reg_eqb RCC_CR r) eqn:E.
        + apply reg_eqb_eq in E. subst r.
          rewrite !mem_set_bits_same, (Hf RCC_CR) by discriminate.
          reflexivity.
        + assert (Hr : RCC_CR <> r)
            by (intros <-; rewrite reg_eqb_refl in E; discriminate).
          rewrite !mem_set_bits_other by (exact Hr || discriminate).
          apply Hf; assumption.
      - rewrite !mem_set_bits_other by discriminate. exact He. }
    pose proof (same_but_gates_wait sched _ _ H1) as Hw.
    destruct (wait_HSIRDY sched _) as [[a ra]|];
      destruct (wait_HSIRDY sched _) as [[b rb]|]; try exact Hw.
    destruct Hw as [-> Hab].
    split; [reflexivity | apply same_but_gates_configure; exact Hab].
  - split; [reflexivity | apply same_but_gates_configure; exact H0].
Qed.

Lemma DeInit_then_Init_is_Init_witness :
  u32 (mem running RCC_APB1ENR1)
  /\ match UPTIME_Init [[]; [ev_hsirdy]] (UPTIME_DeInit running),
           UPTIME_Init [[]; [ev_hsirdy]] running with
     | Some (a, ra), Some (b, rb) => ra = rb /\ forall r, mem a r = mem b r
     | None, None => True
     | _, _ => False
     end.
Proof.
  assert (Hu : u32 (mem running RCC_APB1ENR1)) by by_evaluation.
  split; [exact Hu|].
  apply (DeInit_then_Init_is_Init [[]; [ev_hsirdy]] running Hu).
Defined.

(** ** Two readings of [micros] *)

Lemma wrap32_congr a b q : a = b + q * 2 ^ 32 -> wrap32 a = wrap32 b.
Proof. intros ->. unfold wrap32. apply Z_mod_plus_full. Qed.

(** X7.  Between two calls of [micros], with k runs of the handler in
    between, the second reading minus the first, modulo 2^32, is 1000 * k
    plus the difference of the two hardware counts: the elapsed time that
    [delayUs] compares with its argument. *)
Theorem micros_elapsed_between_readings :
  forall (es : list hw_event) (s : State),
    u32 (mem s _uptime_ms_cnt) ->
    let s2 := hw_run es (snd (micros s)) in
    wrap32 (fst (micros s2) - fst (micros s))
    = wrap32 (1000 * irq_count es + mem s2 LPTIM1_CNT - mem s LPTIM1_CNT).
Proof.
  intros es s Hu s2.
  assert (Em : mem s2 _uptime_ms_cnt
               = wrap32 (mem s _uptime_ms_cnt + irq_count es))
    by (subst s2; rewrite ms_hw_run by exact Hu; reflexivity).
  rewrite !micros_fst, Em.
  rewrite wrap32_sub_r, wrap32_sub_l.
  apply wrap32_congr
    with (q := - 1000 * ((mem s _uptime_ms_cnt + irq_count es) / 2 ^ 32)).
  unfold wrap32.
  pose proof (Z.div_mod (mem s _uptime_ms_cnt + irq_count es) (2 ^ 32)
                ltac:(discriminate)).
  lia.
Qed.

Lemma micros_elapsed_between_readings_witness :
  u32 (mem near_wrap _uptime_ms_cnt)
  /\ wrap32 (fst (micros (hw_run [ev_cnt 990; ev_irq; ev_irq; ev_cnt 12]
                            (snd (micros near_wrap))))
             - fst (micros near_wrap))
     = 2012.
Proof.
  assert (Hu : u32 (mem near_wrap _uptime_ms_cnt)) by by_evaluation.
  split; [exact Hu|].
  apply (micros_elapsed_between_readings
           [ev_cnt 990; ev_irq; ev_irq; ev_cnt 12] near_wrap Hu).
Defined.

(** ** Delays when the timer does not tick *)

Lemma ms_hw_run_no_irq es : forall s,
  irq_count es = 0 ->
  mem (hw_run es s) _uptime_ms_cnt = mem s _uptime_ms_cnt.
Proof.
  induction es as [|e es IH]; intros s H; cbn [hw_run]; [reflexivity|].
  pose proof (irq_count_nonneg es) as Hn.
  destruct e; cbn [irq_count] in H; try lia; rewrite IH by exact H;
    reflexivity.
Qed.

Lemma delayMs_wait_blocks : forall sched s start d,
  1 <= d ->
  mem s _uptime_ms_cnt = start ->
  Forall (fun b => irq_count b = 0) sched ->
  delayMs_wait start d sched s = None.
Proof.
  induction sched as [|b sched IH]; intros s start d Hd Hs Hall;
    [reflexivity|].
  cbn [delayMs_wait]. unfold millis, read.
  assert (Hb : irq_count b = 0) by (inversion Hall; assumption).
  rewrite (ms_hw_run_no_irq b s Hb), Hs, Z.sub_diag.
  change (wrap32 0) with 0.
  destruct (0 <? d) eqn:E; [|apply Z.ltb_ge in E; lia].
  apply IH; [exact Hd | | inversion Hall; assumption].
  cbn [mem]. rewrite (ms_hw_run_no_irq b s Hb). exact Hs.
Qed.

(** X8.  [delayMs d] with d at least 1 does not return for as long as the
    handler does not run (timer not initialised, suspended, or its
    interrupt line disabled), whatever else happens and whatever the
    counter holds. *)
Theorem delayMs_blocks_without_ticks :
  forall (d : Z) (sched : schedule) (s : State),
    1 <= d ->
    Forall (fun b => irq_count b = 0) sched ->
    delayMs d sched s = None.
Proof.
  intros d sched s Hd Hall. rewrite delayMs_unfold.
  apply delayMs_wait_blocks; [exact Hd | reflexivity | exact Hall].
Qed.

Lemma delayMs_blocks_without_ticks_witness :
  delayMs 1 [[]; [ev_cnt 500]; [ev_hsirdy; ev_cnt 999]; []] running = None.
Proof.
  apply (delayMs_blocks_without_ticks
           1 [[]; [ev_cnt 500]; [ev_hsirdy; ev_cnt 999]; []] running).
  - lia.
  - repeat constructor.
Defined.

Lemma frozen_hw_run es : forall s,
  time_frozen es = true ->
  mem (hw_run es s) _uptime_ms_cnt = mem s _uptime_ms_cnt
  /\ mem (hw_run es s) LPTIM1_CNT = mem s LPTIM1_CNT.
Proof.
  induction es as [|e es IH]; intros s H; cbn [hw_run];
    [split; reflexivity|].
  cbn [time_frozen forallb] in H. apply andb_prop in H. destruct H as [He H].
  destruct e; try discriminate.
  destruct (IH (hw_step ev_hsirdy s) H) as [-> ->]. split; reflexivity.
Qed.

Lemma micros_preempted_frozen between es s :
  time_frozen es = true -> time_frozen between = true ->
  fst (micros_preempted between (hw_run es s)) = fst (micros s)
  /\ fst (micros (snd (micros_preempted between (hw_run es s))))
     = fst (micros s).
Proof.
  intros He Hb.
  destruct (frozen_hw_run es s He) as [E1 E2].
  rewrite micros_fst, !micros_preempted_fst, micros_fst.
  assert (E : mem (snd (micros_preempted between (hw_run es s)))
              = mem (hw_run between
                       (snd (read _uptime_ms_cnt (hw_run es s)))))
    by reflexivity.
  rewrite E.
  destruct (frozen_hw_run between
              (snd (read _uptime_ms_cnt (hw_run es s))) Hb) as [E3 E4].
  rewrite E3, E4. cbn [read snd mem]. rewrite E1, E2. split; reflexivity.
Qed.

Lemma delayUs_wait_blocks : forall sched s start us,
  1 <= us ->
  fst (micros s) = start ->
  Forall (fun p => time_frozen (fst p) = true
                   /\ time_frozen (snd p) = true) sched ->
  delayUs_wait start us sched s = None.
Proof.
  induction sched as [|[b between] sched IH]; intros s start us Hus Hs Hall;
    [reflexivity|].
  cbn [delayUs_wait].
  assert (Hp : time_frozen b = true /\ time_frozen between = true)
    by (inversion Hall; assumption).
  destruct (micros_preempted_frozen between b s (proj1 Hp) (proj2 Hp))
    as [E1 E2].
  destruct (micros_preempted between (hw_run b s)) as [now s1] eqn:Em.
  cbn [fst snd] in E1, E2. rewrite E1, Hs, Z.sub_diag.
  change (wrap32 0) with 0.
  destruct (0 <? us) eqn:E; [|apply Z.ltb_ge in E; lia].
  apply IH; [exact Hus | | inversion Hall; assumption].
  rewrite E2. exact Hs.
Qed.

(** X9.  [delayUs us] with us at least 1 does not return for as long as
    neither the handler runs nor the hardware count moves: a delay taken
    while the timer is stopped never ends. *)
Theorem delayUs_blocks_when_time_frozen :
  forall (us : Z) (between0 : list hw_event) (sched : schedule2) (s : State),
    1 <= us ->
    time_frozen between0 = true ->
    Forall (fun p => time_frozen (fst p) = true
                     /\ time_frozen (snd p) = true) sched ->
    delayUs us between0 sched s = None.
Proof.
  intros us between0 sched s Hus H0 Hall. unfold delayUs.
  destruct (micros_preempted_frozen between0 [] s eq_refl H0) as [E1 E2].
  cbn [hw_run] in E1, E2.
  destruct (micros_preempted between0 s) as [start s1].
  cbn [fst snd] in E1, E2.
  apply delayUs_wait_blocks; [exact Hus | congruence | exact Hall].
Qed.

Lemma delayUs_blocks_when_time_frozen_witness :
  delayUs 1 [] [([], []); ([ev_hsirdy], []); ([], [ev_hsirdy])] running
  = None.
Proof.
  apply (delayUs_blocks_when_time_frozen
           1 [] [([], []); ([ev_hsirdy], []); ([], [ev_hsirdy])] running).
  - lia.
  - reflexivity.
  - repeat constructor.
Defined.

(** ** [delayUs] does not return early *)




Example delayUs_1500_from_running :
  option_map (fun r => (fst (micros (fst r)), snd r))
    (delayUs 1500 [] [([ev_cnt 900], []); ([ev_irq; ev_cnt 300], []);
                      ([ev_cnt 800], []); ([ev_irq; ev_cnt 2], [])] running)
  = Some (42800, [([ev_irq; ev_cnt 2], [])]).
Proof. vm_compute. reflexivity. Qed.

(** ** A reading of [micros] interrupted between its two loads *)

(** X11.  A call of [micros] during which the handler runs k times between
    the two loads returns a value that is 1000 * k behind, modulo 2^32,
    what [micros] returns when called again at once: the counter it used
    is the one from before the interrupts, the hardware count the one from
    after. *)
Theorem micros_preempted_is_stale_by_1000_per_tick :
  forall (between : list hw_event) (s : State),
    u32 (mem s _uptime_ms_cnt) ->
    fst (micros (snd (micros_preempted between s)))
    = wrap32 (fst (micros_preempted between s) + 1000 * irq_count between).
Proof.
  intros between s Hu.
  rewrite micros_fst, micros_preempted_fst, ms_micros_preempted by exact Hu.
  rewrite wrap32_add_l.
  apply wrap32_congr
    with (q := - 1000 * ((mem s _uptime_ms_cnt + irq_count between)
                         / 2 ^ 32)).
  unfold wrap32.
  pose proof (Z.div_mod (mem s _uptime_ms_cnt + irq_count between) (2 ^ 32)
                ltac:(discriminate)).
  lia.
Qed.

Lemma micros_preempted_is_stale_by_1000_per_tick_witness :
  u32 (mem running _uptime_ms_cnt)
  /\ fst (micros (snd (micros_preempted [ev_irq; ev_cnt 3] running)))
     = wrap32 (fst (micros_preempted [ev_irq; ev_cnt 3] running)
               + 1000 * irq_count [ev_irq; ev_cnt 3]).
Proof.
  assert (Hu : u32 (mem running _uptime_ms_cnt)) by by_evaluation.
  split; [exact Hu|].
  apply (micros_preempted_is_stale_by_1000_per_tick
           [ev_irq; ev_cnt 3] running Hu).
Defined.

Example micros_preempted_running :
  fst (micros_preempted [ev_irq; ev_cnt 3] running) = 41003
  /\ fst (micros (snd (micros_preempted [ev_irq; ev_cnt 3] running))) = 42003.
Proof. vm_compute. split; reflexivity. Qed.

(** ** Initialising twice *)





(** ** Deinitialising what was initialised *)

Lemma mem_DeInit_ENR s :
  mem (UPTIME_DeInit s) RCC_APB1ENR1
  = Z.land (mem s RCC_APB1ENR1) (not32 RCC_APB1ENR1_LPTIM1EN).
Proof. reflexivity. Qed.

(** X3.  [UPTIME_DeInit] after a returned [UPTIME_Init] undoes part of it
    only.  It puts [RCC->APB1ENR1] back to the value it had before the
    initialisation (the gate bit being clear then), disables the interrupt
    line and zeroes the counter; it does not touch [RCC->CCIPR] and
    [RCC->CR], so the clock source of the timer stays selected as HSI16
    (field at binary 10, its other bits as the initialisation left them)
    and HSI16 stays switched on. *)
Theorem DeInit_after_Init_closes_gate_keeps_clock_selection :
  forall (sched : schedule) (s s' : State) (rest : schedule),
    u32 (mem s RCC_APB1ENR1) ->
    Z.testbit (mem s RCC_APB1ENR1) 31 = false ->
    UPTIME_Init sched s = Some (s', rest) ->
    mem (UPTIME_DeInit s') RCC_APB1ENR1 = mem s RCC_APB1ENR1
    /\ mem (UPTIME_DeInit s') NVIC_LPTIM1 = 0
    /\ fst (millis (UPTIME_DeInit s')) = 0
    /\ mem (UPTIME_DeInit s') RCC_CCIPR
       = Z.lor (Z.land (mem s RCC_CCIPR) (not32 RCC_CCIPR_LPTIM1SEL))
               RCC_CCIPR_LPTIM1SEL_1
    /\ Z.testbit (mem (UPTIME_DeInit s') RCC_CCIPR) 19 = true
    /\ Z.testbit (mem (UPTIME_DeInit s') RCC_CCIPR) 18 = false
    /\ Z.testbit (mem (UPTIME_DeInit s') RCC_CR) 8 = true.
Proof.
  intros sched s s' rest Hu Hb H.
  pose proof (HSION_after_Init _ _ _ _ H) as H8.
  rewrite UPTIME_Init_split in H.
  destruct (Init_clock_guard sched s) as [[s1 rest1]|] eqn:Hg;
    [|discriminate].
  injection H as <- <-.
  destruct (Init_clock_guard_effect _ _ _ _ Hg) as (Hf & _).
  destruct (Init_configure_effect s1)
    as (_ & _ & _ & _ & _ & E6 & E7 & _).
  assert (Ec : mem (UPTIME_DeInit (Init_configure s1)) RCC_CCIPR
               = Z.lor (Z.land (mem s RCC_CCIPR)
                               (not32 RCC_CCIPR_LPTIM1SEL))
                       RCC_CCIPR_LPTIM1SEL_1).
  { change (mem (UPTIME_DeInit (Init_configure s1)) RCC_CCIPR)
      with (mem (Init_configure s1) RCC_CCIPR).
    rewrite E6, Hf by discriminate. reflexivity. }
  split; [|split; [|split; [|split; [|split; [|split]]]]].
  - rewrite mem_DeInit_ENR, E7, Hf by discriminate.
    rewrite pulse_clears_bit. unfold RCC_APB1ENR1_LPTIM1EN.
    apply land_not32_clear; [exact Hu | lia | exact Hb].
  - reflexivity.
  - reflexivity.
  - exact Ec.
  - rewrite Ec, Z.lor_spec, LPTIM1SEL_1_bits. apply orb_true_r.
  - rewrite Ec, Z.lor_spec, Z.land_spec, testbit_not32 by lia.
    rewrite LPTIM1SEL_bits, LPTIM1SEL_1_bits by lia.
    cbn [Z.eqb orb negb]. rewrite andb_false_r. reflexivity.
  - exact H8.
Qed.

Lemma DeInit_after_Init_closes_gate_keeps_clock_selection_witness :
  exists s' rest,
    UPTIME_Init [[]; [ev_irq]; [ev_hsirdy]; []] boot = Some (s', rest)
    /\ mem (UPTIME_DeInit s') RCC_APB1ENR1 = mem boot RCC_APB1ENR1.
Proof.
  assert (Hu : u32 (mem boot RCC_APB1ENR1)) by by_evaluation.
  destruct (UPTIME_Init [[]; [ev_irq]; [ev_hsirdy]; []] boot)
    as [[s' rest]|] eqn:E.
  - exists s', rest. split; [reflexivity|].
    apply (DeInit_after_Init_closes_gate_keeps_clock_selection
             [[]; [ev_irq]; [ev_hsirdy]; []] boot s' rest Hu eq_refl E).
  - vm_compute in E. discriminate.
Defined.

Example DeInit_after_Init_from_boot :
  option_map (fun r => (mem (UPTIME_DeInit (fst r)) RCC_APB1ENR1,
                        mem (UPTIME_DeInit (fst r)) NVIC_LPTIM1,
                        mem (UPTIME_DeInit (fst r)) RCC_CCIPR,
                        mem (UPTIME_DeInit (fst r)) RCC_CR))
    (UPTIME_Init [[]; [ev_irq]; [ev_hsirdy]; []] boot)
  = Some (0, 0, RCC_CCIPR_LPTIM1SEL_1,
          Z.lor RCC_CR_HSION RCC_CR_HSIRDY).
Proof. vm_compute. reflexivity. Qed.
